(** * Sentinel backend: event ingestion, live broadcast and push dispatch

    A shallow embedding of the request handlers of [backend/app]:
    - [routers/events.py]  : [verify_api_key], [create_events];
    - [routers/devices.py] : [deactivate_device];
    - [websocket.py]       : [ConnectionManager];
    - [push.py]            : VAPID keys, the subscription table, the dispatcher.

    Python integers are [Z], [str] is [string], [Optional[T]] is [option T],
    a [set] is a [gset], a [dict] is the list of its items in insertion
    order.  Module state (the SQLAlchemy session, [push_subscriptions], the
    files under [/tmp]) is threaded explicitly.  An exception that a function
    lets escape is a constructor of its result type. *)

From Stdlib Require Import ZArith Lia Ascii Qcanon.
From stdpp Require Import base option list sorting gmap fin_maps fin_sets strings pretty.

#[local] Set Warnings "-clear-no-such-hyp,-register-all".

(** ** Python values *)

(** Truth value of an [Optional[str]]: [None] and [""] are falsy. *)
Definition str_truthy (s : option string) : bool :=
  match s with
  | Some s => negb (bool_decide (s = ""))
  | None => false
  end.

(** [a or b] on [Optional[str]] operands. *)
Definition str_or (a b : option string) : option string :=
  if str_truthy a then a else b.

(** Truth value of an [Optional[int]]: [None] and [0] are falsy. *)
Definition int_truthy (n : option Z) : bool :=
  match n with
  | Some n => negb (bool_decide (n = 0%Z))
  | None => false
  end.

(** [str(n)] for an [int]. *)
Definition str_of_int (n : Z) : string := pretty n.

(** What a FastAPI handler produces: a value, or a raised [HTTPException]. *)
Inductive Response (A : Type) : Type :=
| Return (a : A)
| HTTPException (status_code : Z) (detail : string).
Arguments Return {A} a.
Arguments HTTPException {A} status_code detail.

(** ** [models.py] *)

Module Device.
Record t := mk {
  id : Z;
  device_id : string;
  device_name : string;
  model : string;
  os_version : string;
  api_key : string;
  is_active : bool;
  last_seen : Z
}.

Definition set_last_seen (now : Z) (d : t) : t :=
  mk (id d) (device_id d) (device_name d) (model d) (os_version d)
     (api_key d) (is_active d) now.

Definition set_is_active (b : bool) (d : t) : t :=
  mk (id d) (device_id d) (device_name d) (model d) (os_version d)
     (api_key d) b (last_seen d).
End Device.

Module Employee.
Record t := mk {
  employee_id : string;
  name : string
}.
End Employee.

Module Event.
Record t := mk {
  id : Z;
  event_type : string;
  timestamp : Z;
  track_id : Z;
  device_id : string;
  employee_id : option string;
  license_plate : option string;
  duration : Z
}.
End Event.

(** ** [schemas.py] *)

Module EventCreate.
Record t := mk {
  type : string;
  timestamp : Z;
  track_id : Z;
  employee_id : option string;
  license_plate : option string;
  duration : Z;
  device_id : string
}.
End EventCreate.

Module BatchEventRequest.
Record t := mk {
  events : list EventCreate.t;
  device_id : string
}.
End BatchEventRequest.

Module BatchEventResponse.
Record t := mk {
  success : bool;
  processed : Z;
  message : option string
}.
End BatchEventResponse.

(** ** [database.py]: the session

    [devices], [employees] and [events] are the committed rows of the three
    tables in row order; [pending] holds the event rows the open transaction
    has flushed and not yet committed. *)

Module Session.
Record t := mk {
  devices : list Device.t;
  employees : list Employee.t;
  events : list Event.t;
  pending : list Event.t
}.

Definition with_devices (ds : list Device.t) (db : t) : t :=
  mk ds (employees db) (events db) (pending db).

(** The largest [rowid] SQLite stores, 2^63 - 1. *)
Definition max_rowid : Z := 9223372036854775807.

(** The key the store gives the next inserted event.  [events.id] is an
    [INTEGER PRIMARY KEY], an alias of the [rowid]: 1 in an empty table,
    otherwise one more than the largest key in the table, the rows of the
    open transaction included.  Once the largest key is [max_rowid] the
    engine tries unused keys at random: [random_rowid keys] is the key it
    settles on, or the [str] of the exception the INSERT raises when it
    finds none. *)
Definition next_id (random_rowid : list Z -> string + Z) (db : t) : string + Z :=
  match Event.id <$> (events db ++ pending db) with
  | [] => inr 1%Z
  | id :: ids =>
      let largest := foldr Z.max id ids in
      if (largest <? max_rowid)%Z then inr (largest + 1)%Z
      else random_rowid (id :: ids)
  end.

(** The session once the open transaction has flushed [rows] more. *)
Definition flushed (rows : list Event.t) (db : t) : t :=
  mk (devices db) (employees db) (events db) (pending db ++ rows).

(** [db.rollback()] *)
Definition rollback (db : t) : t :=
  mk (devices db) (employees db) (events db) [].
End Session.

(** [.first()] of a filtered query: the first row that passes. *)
Definition first {A} (p : A -> bool) (rows : list A) : option A := List.find p rows.

(** Write back the row [.first()] returned, after mutating it with [f]. *)
Fixpoint update_first {A} (p : A -> bool) (f : A -> A) (rows : list A) : list A :=
  match rows with
  | [] => []
  | r :: rows' => if p r then f r :: rows' else r :: update_first p f rows'
  end.

(** ** [routers/devices.py] *)

Definition deactivate_device (device_id : string) (db : Session.t)
  : Response (bool * string) * Session.t :=
  let by_id := fun d => bool_decide (Device.device_id d = device_id) in
  match first by_id (Session.devices db) with
  | None => (HTTPException 404 "Device not found", db)
  | Some _ =>
      (Return (true, "Device deactivated"),
       Session.with_devices
         (update_first by_id (Device.set_is_active false) (Session.devices db)) db)
  end.

(** ** [routers/events.py] *)

Module Events.

(** The filter of [verify_api_key]:
    [Device.api_key == x_api_key, Device.is_active == True]. *)
Definition key_matches (x_api_key : string) (d : Device.t) : bool :=
  bool_decide (Device.api_key d = x_api_key) && Device.is_active d.

(** [now] is [int(datetime.now().timestamp())]. *)
Definition verify_api_key (x_api_key : string) (now : Z) (db : Session.t)
  : Response Device.t * Session.t :=
  match first (key_matches x_api_key) (Session.devices db) with
  | None => (HTTPException 401 "Invalid or inactive API key", db)
  | Some device =>
      (Return (Device.set_last_seen now device),
       Session.with_devices
         (update_first (key_matches x_api_key) (Device.set_last_seen now)
            (Session.devices db)) db)
  end.

(** The dictionary [create_events] hands to [manager.broadcast_event]. *)
Module EventDict.
Record t := mk {
  id : Z;
  event_type : string;
  timestamp : Z;
  employee_name : option string;
  license_plate : option string;
  duration : Z
}.
End EventDict.

(** An entry of [background_tasks]. *)
Inductive Task :=
| broadcast_event_task (event_dict : EventDict.t)
| send_alert_notification_task (event_type : string) (details : string) (event_id : Z).

(** The row the loop of [create_events] builds from one input; [device_id]
    comes from the authenticated device, the input's own is not read. *)
Definition new_event (device : Device.t) (event_data : EventCreate.t) (id : Z) : Event.t :=
  Event.mk id
    (EventCreate.type event_data)
    (EventCreate.timestamp event_data)
    (EventCreate.track_id event_data)
    (Device.device_id device)
    (EventCreate.employee_id event_data)
    (EventCreate.license_plate event_data)
    (EventCreate.duration event_data).

(** The ingestion gate of [create_events]. *)
Definition alert_types : list string :=
  ["UNKNOWN_FACE_DETECTED"; "LOITERING_DETECTED"].

Section Storage.
(** The store may refuse a write.  [flush_error row] is [Some msg] when the
    INSERT of [row] raises an exception whose [str] is [msg];
    [commit_error rows] likewise for the COMMIT of the pending [rows].
    [random_rowid] is the choice of [Session.next_id] in a table whose
    largest key is the largest there is. *)
Variable random_rowid : list Z -> string + Z.
Variable flush_error : Event.t -> option string.
Variable commit_error : list Event.t -> option string.

(** [db.add(event); db.flush()]: the row gets its key and joins the open
    transaction, or the INSERT raises. *)
Definition add_flush (device : Device.t) (event_data : EventCreate.t) (db : Session.t)
  : string + (Event.t * Session.t) :=
  match Session.next_id random_rowid db with
  | inl msg => inl msg
  | inr id =>
      let event := new_event device event_data id in
      match flush_error event with
      | Some msg => inl msg
      | None => inr (event, Session.flushed [event] db)
      end
  end.

(** The first loop of [create_events], with its two accumulators; when an
    INSERT raises, the message and the session as it stands then. *)
Fixpoint add_events (device : Device.t) (events : list EventCreate.t)
    (events_created : Z) (created_events : list Event.t) (db : Session.t)
  : (string * Session.t) + (Z * list Event.t * Session.t) :=
  match events with
  | [] => inr (events_created, created_events, db)
  | event_data :: rest =>
      match add_flush device event_data db with
      | inl msg => inl (msg, db)
      | inr (event, db') =>
          add_events device rest (events_created + 1)%Z (created_events ++ [event]) db'
      end
  end.

(** [db.commit()] *)
Definition commit (db : Session.t) : string + Session.t :=
  match commit_error (Session.pending db) with
  | Some msg => inl msg
  | None =>
      inr (Session.mk (Session.devices db) (Session.employees db)
             (Session.events db ++ Session.pending db) [])
  end.

(** The employee lookup of the second loop. *)
Definition employee_name_of (event : Event.t) (db : Session.t) : option string :=
  if str_truthy (Event.employee_id event) then
    match first (fun emp => bool_decide (Some (Employee.employee_id emp) = Event.employee_id event))
            (Session.employees db) with
    | Some emp => Some (Employee.name emp)
    | None => None
    end
  else None.

(** The body of the second loop: the tasks queued for one created event. *)
Definition tasks_for (event : Event.t) (db : Session.t) : list Task :=
  let employee_name := employee_name_of event db in
  let event_dict :=
    EventDict.mk (Event.id event) (Event.event_type event) (Event.timestamp event)
      employee_name (Event.license_plate event) (Event.duration event) in
  broadcast_event_task event_dict ::
  (if bool_decide (Event.event_type event ∈ alert_types) then
     let details := default "" (str_or (str_or employee_name (Event.license_plate event)) (Some "")) in
     [send_alert_notification_task (Event.event_type event) details (Event.id event)]
   else []).

Definition success_message (events_created : Z) : string :=
  "Successfully processed " +:+ str_of_int events_created +:+ " events".

(** [create_events]: the response, the session afterwards and the tasks
    left in [background_tasks]. *)
Definition create_events (request : BatchEventRequest.t) (device : Device.t)
    (db : Session.t) : Response BatchEventResponse.t * Session.t * list Task :=
  match add_events device (BatchEventRequest.events request) 0 [] db with
  | inl (msg, db1) => (HTTPException 500 msg, Session.rollback db1, [])
  | inr (events_created, created_events, db1) =>
      match commit db1 with
      | inl msg => (HTTPException 500 msg, Session.rollback db1, [])
      | inr db2 =>
          (Return (BatchEventResponse.mk true events_created
                     (Some (success_message events_created))),
           db2,
           flat_map (fun event => tasks_for event db2) created_events)
      end
  end.
End Storage.

End Events.

(** ** [websocket.py] *)

Module ConnectionManager.

(** A [WebSocket] object; the set hashes them by identity. *)
Abbreviation WebSocket := positive (only parsing).

(** The manager's one field besides its lock. *)
Record t := mk { active_connections : gset positive }.

(** What the peers have been sent so far: for each connection, the text
    frames written to it, oldest first. *)
Abbreviation Wire := (gmap positive (list string)) (only parsing).

Definition frames (websocket : WebSocket) (wire : Wire) : list string :=
  default [] (wire !! websocket).

Section Sending.
(** The message type and [json.dumps] on it. *)
Context {Message : Type}.
Variable json_dumps : Message -> string.

(** [send_text_raises c text] tells whether [c.send_text(text)] raises. *)
Variable send_text_raises : WebSocket -> string -> bool.

(** [await connection.send_text(text)]: [None] when it raises, and then
    nothing reaches the peer. *)
Definition send_text (connection : WebSocket) (text : string) (wire : Wire)
  : option Wire :=
  if send_text_raises connection text then None
  else Some (<[connection := frames connection wire ++ [text]]> wire).

(** [connect], after [websocket.accept()]. *)
Definition connect (websocket : WebSocket) (self : t) : t :=
  mk (active_connections self ∪ {[websocket]}).

(** [disconnect]: [set.discard]. *)
Definition disconnect (websocket : WebSocket) (self : t) : t :=
  mk (active_connections self ∖ {[websocket]}).

(** One turn of the loop of [broadcast]; the state is the [disconnected]
    set and the wire. *)
Definition broadcast_step (message_json : string)
    (acc : gset positive * Wire) (connection : WebSocket) : gset positive * Wire :=
  match send_text connection message_json (snd acc) with
  | Some wire' => (fst acc, wire')
  | None => (fst acc ∪ {[connection]}, snd acc)
  end.

(** [broadcast]: the loop runs over the members of [active_connections]
    while the lock is held, then the failed ones are subtracted. *)
Definition broadcast (message : Message) (self : t) (wire : Wire) : t * Wire :=
  if bool_decide (active_connections self = ∅) then (self, wire)
  else
    let message_json := json_dumps message in
    let '(disconnected, wire') :=
      foldl (broadcast_step message_json) (∅, wire)
            (elements (active_connections self)) in
    (mk (active_connections self ∖ disconnected), wire').
End Sending.

End ConnectionManager.

(** ** More Python values: JSON, dictionary keys, dictionaries, exceptions *)

(** What [json.loads] makes of a request body.  A number carries its exact
    value, that of an [int] or of a finite [float]. *)
Module Json.
Inductive t :=
| null
| boolean (b : bool)
| number (q : Qc)
| str (s : string)
| array (items : list t)
| object (entries : list (string * t)).

(** [d.get(name)] on the entries, the items of a dictionary. *)
Definition get (name : string) (entries : list (string * t)) : option t :=
  snd <$> List.find (fun entry => bool_decide (fst entry = name)) entries.
End Json.

(** The hashable ones among these values, up to [==], which is how a
    dictionary tells its keys apart: numbers are equal when their values
    are, whether [int] or [float], [True] is the key 1 and [False] the
    key 0. *)
Module Key.
Inductive t :=
| str (s : string)
| none
| number (q : Qc).

#[global] Instance eq_dec : EqDecision t.
Proof. solve_decision. Defined.

(** The key a value is looked up under; [None] stands for the [TypeError]
    that hashing a list or a dictionary raises. *)
Definition of_value (v : Json.t) : option t :=
  match v with
  | Json.str s => Some (str s)
  | Json.null => Some none
  | Json.boolean b => Some (number (if b then 1 else 0)%Qc)
  | Json.number q => Some (number q)
  | Json.array _ => None
  | Json.object _ => None
  end.

(** The key as a value again. *)
Definition value (k : t) : Json.t :=
  match k with
  | str s => Json.str s
  | none => Json.null
  | number q => Json.number q
  end.

(** Whether [k[:50]] goes through: it does for a [str]; [None] and numbers
    raise [TypeError]. *)
Definition sliceable (k : t) : bool :=
  match k with
  | str _ => true
  | none => false
  | number _ => false
  end.
End Key.

(** A [dict]: its items in insertion order. *)
Module PyDict.
Section PyDict.
Context {K V : Type} `{EqDecision K}.

(** [d.keys()] *)
Definition keys (d : list (K * V)) : list K := fst <$> d.

(** [d.get(k)] *)
Definition get (k : K) (d : list (K * V)) : option V :=
  snd <$> List.find (fun item => bool_decide (fst item = k)) d.

(** [d[k] = v]: a key already there keeps its place, a new one goes last. *)
Fixpoint set (k : K) (v : V) (d : list (K * V)) : list (K * V) :=
  match d with
  | [] => [(k, v)]
  | item :: d' =>
      if bool_decide (fst item = k) then (fst item, v) :: d'
      else item :: set k v d'
  end.

(** [del d[k]], for a key of the dictionary: the source deletes behind a
    membership test. *)
Definition del (k : K) (d : list (K * V)) : list (K * V) :=
  filter (fun item => fst item ≠ k) d.
End PyDict.
End PyDict.

(** The exceptions the push module and its endpoints let escape. *)
Inductive Exception :=
| TypeError
| AttributeError.

(** How a call ends: with a value, or with an exception. *)
Inductive Result (A : Type) : Type :=
| Returns (a : A)
| Raises (e : Exception).
Arguments Returns {A} a.
Arguments Raises {A} e.

(** ** [push.py] *)

Module Push.

(** [str.strip()] and [str.lower()], on the ASCII range. *)
Definition is_space (c : ascii) : bool :=
  let n := nat_of_ascii c in
  ((9 <=? n) && (n <=? 13) || (28 <=? n) && (n <=? 32))%nat.

Fixpoint lstrip (s : string) : string :=
  match s with
  | String c s' => if is_space c then lstrip s' else s
  | EmptyString => EmptyString
  end.

Fixpoint rstrip (s : string) : string :=
  match s with
  | String c s' =>
      match rstrip s' with
      | EmptyString => if is_space c then EmptyString else String c EmptyString
      | r => String c r
      end
  | EmptyString => EmptyString
  end.

Definition strip (s : string) : string := rstrip (lstrip s).

Definition lower_ascii (c : ascii) : ascii :=
  let n := nat_of_ascii c in
  if ((65 <=? n) && (n <=? 90))%nat then ascii_of_nat (n + 32) else c.

Fixpoint lower (s : string) : string :=
  match s with
  | String c s' => String (lower_ascii c) (lower s')
  | EmptyString => EmptyString
  end.

(** A value of [push_subscriptions]: the posted body under ["subscription"]
    and the owner under ["user_id"]. *)
Module SubData.
Record t := mk {
  subscription : Json.t;
  user_id : string
}.
End SubData.

(** The response object a [WebPushException] may carry. *)
Module HTTPResponse.
Record t := mk { status_code : Z }.

(** The truth value of a [requests.Response], the class [pywebpush] gets
    its responses from: [__bool__] returns the [ok] property, which is
    false exactly when [raise_for_status()] would raise, that is for a
    status from 400 to 599. *)
Definition ok (r : t) : bool :=
  negb ((400 <=? status_code r)%Z && (status_code r <? 600)%Z).
End HTTPResponse.

(** How one call of [webpush] ends. *)
Inductive WebPushResult :=
| Sent
| RaisesWebPushException (response : option HTTPResponse.t)
| RaisesException.

(** The dictionary [send_push_notification] serialises into [data]. *)
Module Payload.
Record t := mk {
  title : string;
  body : string;
  url : string;
  tag : string;
  eventId : option Z
}.
End Payload.

(** What the dispatcher does to the outside, in the order it does it. *)
Inductive Effect :=
| read_private_key
| webpush_call (endpoint : Key.t) (data : Payload.t) (vapid_private_key : string)
| unsubscribe_call (endpoint : Key.t).

(** The module's state: the two files under [/tmp] ([None]: no such file),
    how many key pairs have been generated, the subscription table, a
    dictionary whose keys are whatever the posted bodies had as endpoint, and
    the effects so far (oldest first). *)
Module World.
Record t := mk {
  vapid_private_pem : option string;
  vapid_public_txt : option string;
  generated : nat;
  push_subscriptions : list (Key.t * SubData.t);
  log : list Effect
}.

Definition with_subscriptions (subs : list (Key.t * SubData.t)) (w : t) : t :=
  mk (vapid_private_pem w) (vapid_public_txt w) (generated w) subs (log w).

Definition record (e : Effect) (w : t) : t :=
  mk (vapid_private_pem w) (vapid_public_txt w) (generated w)
     (push_subscriptions w) (log w ++ [e]).
End World.

(** The delivery attempts in a log: endpoint and data of each [webpush] call. *)
Definition attempts (log : list Effect) : list (Key.t * Payload.t) :=
  omap (fun e => match e with
                 | webpush_call endpoint data _ => Some (endpoint, data)
                 | _ => None
                 end) log.

Section Service.
(** [generate_private_key n] is the [n]-th pair the key generator yields:
    the PEM text of the private key and the base64url text of the
    uncompressed public point. *)
Variable generate_private_key : nat -> string * string.

(** [settings.host] *)
Variable host : string.

(** The outcome of [webpush(subscription_info, data, vapid_private_key, vapid_claims)]. *)
Variable webpush :
  Json.t -> Payload.t -> string -> string -> WebPushResult.

(** [bool(response)], as the class of the response object defines it. *)
Variable truthy : HTTPResponse.t -> bool.

Definition generate_vapid_keys (w : World.t) : World.t :=
  match World.vapid_private_pem w, World.vapid_public_txt w with
  | Some _, Some _ => w
  | _, _ =>
      let '(private_pem, public_key_b64) := generate_private_key (World.generated w) in
      World.mk (Some private_pem) (Some public_key_b64) (S (World.generated w))
        (World.push_subscriptions w) (World.log w)
  end.

(** [read_text().strip()]; [None] stands for [FileNotFoundError]. *)
Definition read_text_strip (file : option string) : option string :=
  strip <$> file.

Definition get_vapid_public_key (w : World.t) : option string * World.t :=
  let w' := generate_vapid_keys w in
  (read_text_strip (World.vapid_public_txt w'), w').

Definition get_vapid_private_key (w : World.t) : option string * World.t :=
  let w' := generate_vapid_keys w in
  (read_text_strip (World.vapid_private_pem w'), World.record read_private_key w').

(** [subscribe]: the body is whatever was posted.  A body that is no
    dictionary has no [get] ([AttributeError]), an endpoint that is a list or
    a dictionary cannot be a key ([TypeError]); both are caught by the
    [except] branch, which answers [False]. *)
Definition subscribe (subscription_info : Json.t) (user_id : string)
    (w : World.t) : bool * World.t :=
  match subscription_info with
  | Json.object entries =>
      let endpoint := default (Json.str "") (Json.get "endpoint" entries) in
      match Key.of_value endpoint with
      | Some key =>
          (true,
           World.with_subscriptions
             (PyDict.set key (SubData.mk subscription_info user_id)
                (World.push_subscriptions w)) w)
      | None => (false, w)
      end
  | _ => (false, w)
  end.

(** [unsubscribe]: the membership test raises [TypeError] for an endpoint
    that cannot be a key; the log line after the deletion slices the
    endpoint, which raises [TypeError] unless it is a [str]. *)
Definition unsubscribe (endpoint : Json.t) (w : World.t) : Result bool * World.t :=
  match Key.of_value endpoint with
  | None => (Raises TypeError, w)
  | Some key =>
      if bool_decide (key ∈ PyDict.keys (World.push_subscriptions w)) then
        let w' := World.with_subscriptions
                    (PyDict.del key (World.push_subscriptions w)) w in
        if Key.sliceable key then (Returns true, w') else (Raises TypeError, w')
      else (Returns false, w)
  end.

(** [e.response and e.response.status_code in (404, 410)] *)
Definition expired (response : option HTTPResponse.t) : bool :=
  match response with
  | None => false
  | Some r =>
      truthy r && bool_decide (HTTPResponse.status_code r ∈ [404%Z; 410%Z])
  end.

Definition vapid_claims : string := "mailto:admin@" +:+ host.

(** One turn of the loop over [push_subscriptions.items()]; the state is
    [failed_endpoints] and the world.  The debug line after a delivery that
    went through slices the endpoint inside the [try]: for a key that is no
    [str] its [TypeError] is caught by [except Exception] and only logged. *)
Definition push_step (data : Payload.t) (acc : list Key.t * World.t)
    (item : Key.t * SubData.t) : list Key.t * World.t :=
  let '(failed_endpoints, w) := acc in
  let '(endpoint, sub_data) := item in
  match get_vapid_private_key w with
  | (None, w1) => (failed_endpoints, w1)
  | (Some vapid_private_key, w1) =>
      let w2 := World.record (webpush_call endpoint data vapid_private_key) w1 in
      match webpush (SubData.subscription sub_data) data vapid_private_key vapid_claims with
      | Sent => (failed_endpoints, w2)
      | RaisesWebPushException response =>
          if expired response then (failed_endpoints ++ [endpoint], w2)
          else (failed_endpoints, w2)
      | RaisesException => (failed_endpoints, w2)
      end
  end.

(** The clean-up loop: an exception of [unsubscribe] ends it. *)
Fixpoint cleanup (failed_endpoints : list Key.t) (w : World.t) : Result unit * World.t :=
  match failed_endpoints with
  | [] => (Returns tt, w)
  | endpoint :: rest =>
      match unsubscribe (Key.value endpoint) (World.record (unsubscribe_call endpoint) w) with
      | (Returns _, w') => cleanup rest w'
      | (Raises e, w') => (Raises e, w')
      end
  end.

Definition send_push_notification (title body url tag : string)
    (event_id : option Z) (w : World.t) : Result unit * World.t :=
  match World.push_subscriptions w with
  | [] => (Returns tt, w)
  | _ :: _ =>
      let data := Payload.mk title body url tag event_id in
      let '(failed_endpoints, w') :=
        foldl (push_step data) ([], w) (World.push_subscriptions w) in
      cleanup failed_endpoints w'
  end.

(** The template table of [send_alert_notification]. *)
Definition alert_types : list (string * (string * string)) :=
  [ ("UNKNOWN_FACE_DETECTED", ("Unknown Person Detected", "An unrecognized face was detected"));
    ("LOITERING_DETECTED", ("Loitering Alert", "Unusual activity detected"));
    ("VEHICLE_ENTERED", ("Vehicle Entered", "A vehicle has entered the premises")) ].

Definition template (event_type : string) : option (string * string) :=
  snd <$> List.find (fun entry => bool_decide (fst entry = event_type)) alert_types.

Definition alert_url (event_id : option Z) : string :=
  match event_id with
  | Some n => if int_truthy event_id then "/events?highlight=" +:+ str_of_int n else "/events"
  | None => "/events"
  end.

Definition send_alert_notification (event_type details : string)
    (event_id : option Z) (w : World.t) : Result unit * World.t :=
  match template event_type with
  | Some (title, default_body) =>
      let body := if bool_decide (details = "") then default_body else details in
      send_push_notification title body (alert_url event_id)
        ("alert-" +:+ lower event_type) event_id w
  | None => (Returns tt, w)
  end.

(** Two readings of a sweep that starts in [w], used to state what it
    does: the key its deliveries are signed with, and whether the delivery
    to a subscriber puts the endpoint on [failed_endpoints]. *)
Definition signing_key (w : World.t) : string :=
  default "" (read_text_strip (World.vapid_private_pem (generate_vapid_keys w))).

Definition marked (data : Payload.t) (vapid_private_key : string)
    (sub_data : SubData.t) : bool :=
  match webpush (SubData.subscription sub_data) data vapid_private_key vapid_claims with
  | RaisesWebPushException response => expired response
  | _ => false
  end.
End Service.

End Push.

(** ** [routers/devices.py], the other handlers *)

Module DeviceRegistration.
Record t := mk {
  device_id : string;
  device_name : string;
  model : string;
  os_version : string
}.
End DeviceRegistration.

Module DeviceRegistrationResponse.
Record t := mk {
  success : bool;
  api_key : string;
  message : option string
}.
End DeviceRegistrationResponse.

Module DeviceInfo.
Record t := mk {
  device_id : string;
  device_name : string;
  model : string;
  is_active : bool;
  last_seen : option Z
}.
End DeviceInfo.

Module Devices.

(** What a handler produces when a database error may also escape it: the
    [unique] index on [devices.api_key] makes the COMMIT of a row whose
    credential is already in the table raise [IntegrityError]. *)
Inductive Outcome (A : Type) : Type :=
| Served (response : Response A)
| IntegrityError.
Arguments Served {A} response.
Arguments IntegrityError {A}.

Definition by_device_id (device_id : string) (d : Device.t) : bool :=
  bool_decide (Device.device_id d = device_id).

(** The key of the next inserted device: one more than the largest key. *)
Definition next_id (rows : list Device.t) : Z :=
  (foldr (fun d m => Z.max (Device.id d) m) 0 rows + 1)%Z.

(** The assignments of [register_device] to the row of a known device. *)
Definition refresh (registration : DeviceRegistration.t) (now : Z) (d : Device.t)
  : Device.t :=
  Device.mk (Device.id d) (Device.device_id d)
    (DeviceRegistration.device_name registration)
    (DeviceRegistration.model registration)
    (DeviceRegistration.os_version registration)
    (Device.api_key d) true now.

(** [register_device]; [token] is what [generate_api_key()] returns when it
    is called, [now] is [int(datetime.now().timestamp())]. *)
Definition register_device (token : string) (registration : DeviceRegistration.t)
    (now : Z) (db : Session.t)
  : Outcome DeviceRegistrationResponse.t * Session.t :=
  let p := by_device_id (DeviceRegistration.device_id registration) in
  match first p (Session.devices db) with
  | Some existing =>
      (Served (Return (DeviceRegistrationResponse.mk true (Device.api_key existing)
                         (Some "Device updated successfully"))),
       Session.with_devices
         (update_first p (refresh registration now) (Session.devices db)) db)
  | None =>
      let device :=
        Device.mk (next_id (Session.devices db))
          (DeviceRegistration.device_id registration)
          (DeviceRegistration.device_name registration)
          (DeviceRegistration.model registration)
          (DeviceRegistration.os_version registration)
          token true now in
      if bool_decide (token ∈ Device.api_key <$> Session.devices db)
      then (IntegrityError, db)
      else
        (Served (Return (DeviceRegistrationResponse.mk true token
                           (Some "Device registered successfully"))),
         Session.with_devices (Session.devices db ++ [device]) db)
  end.

Definition get_device (device_id : string) (db : Session.t) : Response DeviceInfo.t :=
  match first (by_device_id device_id) (Session.devices db) with
  | None => HTTPException 404 "Device not found"
  | Some device =>
      Return (DeviceInfo.mk (Device.device_id device) (Device.device_name device)
                (Device.model device) (Device.is_active device)
                (Some (Device.last_seen device)))
  end.

Definition activate_device (device_id : string) (db : Session.t)
  : Response (bool * string) * Session.t :=
  match first (by_device_id device_id) (Session.devices db) with
  | None => (HTTPException 404 "Device not found", db)
  | Some _ =>
      (Return (true, "Device activated"),
       Session.with_devices
         (update_first (by_device_id device_id) (Device.set_is_active true)
            (Session.devices db)) db)
  end.

End Devices.

(** ** [routers/events.py], the read handlers *)

Module EventsRead.

(** The filters [get_events] adds to its query; each one is added only when
    its parameter is truthy. *)
Definition passes (event_type : option string) (start_time end_time : option Z)
    (e : Event.t) : bool :=
  (if str_truthy event_type
   then bool_decide (Some (Event.event_type e) = event_type) else true)
  && (if int_truthy start_time
      then bool_decide (default 0 start_time ≤ Event.timestamp e)%Z else true)
  && (if int_truthy end_time
      then bool_decide (Event.timestamp e ≤ default 0 end_time)%Z else true).

(** The type lists of [get_event_stats]. *)
Definition people_types : list string :=
  ["PERSON_ENTERED"; "PERSON_EXITED"; "EMPLOYEE_ARRIVED"; "EMPLOYEE_DEPARTED"].

Definition vehicle_types : list string :=
  ["VEHICLE_ENTERED"; "VEHICLE_EXITED"].

Module Stats.
Record t := mk {
  total_today : Z;
  people_events : Z;
  vehicle_events : Z
}.
End Stats.

(** [.count()] of a filtered query. *)
Definition count (p : Event.t -> bool) (rows : list Event.t) : Z :=
  Z.of_nat (length (List.filter p rows)).

Definition since (start_timestamp : Z) (e : Event.t) : bool :=
  bool_decide (start_timestamp ≤ Event.timestamp e)%Z.

(** [get_event_stats]; [start_timestamp] is the timestamp of today's local
    midnight, as the handler computes it from [datetime.now()]. *)
Definition get_event_stats (start_timestamp : Z) (db : Session.t) : Stats.t :=
  Stats.mk
    (count (since start_timestamp) (Session.events db))
    (count (fun e => since start_timestamp e
                     && bool_decide (Event.event_type e ∈ people_types))
       (Session.events db))
    (count (fun e => since start_timestamp e
                     && bool_decide (Event.event_type e ∈ vehicle_types))
       (Session.events db)).

Section Ordering.
(** [ORDER BY timestamp DESC], as the database carries it out; how it places
    rows of equal timestamp is its own business. *)
Variable order_by_timestamp_desc : list Event.t -> list Event.t.

(** [get_events]; [None] when the declared bounds of [limit] (1 to 1000) and
    [offset] (at least 0) reject the request before the handler runs. *)
Definition get_events (limit offset : Z) (event_type : option string)
    (start_time end_time : option Z) (db : Session.t) : option (list Event.t) :=
  if bool_decide ((1 ≤ limit ≤ 1000)%Z ∧ (0 ≤ offset)%Z) then
    Some (take (Z.to_nat limit)
            (drop (Z.to_nat offset)
               (order_by_timestamp_desc
                  (List.filter (passes event_type start_time end_time)
                     (Session.events db)))))
  else None.

Definition get_today_events (start_timestamp : Z) (db : Session.t) : list Event.t :=
  order_by_timestamp_desc (List.filter (since start_timestamp) (Session.events db)).
End Ordering.

End EventsRead.

(** ** [routers/dashboard.py]: [format_duration] *)

Module Dashboard.

(** [//] and [%] on [int] round towards minus infinity, as [Z.div] and
    [Z.modulo] do for a positive divisor. *)
Definition format_duration (ms : Z) : string :=
  if bool_decide (ms = 0%Z) then "0s"
  else
    let seconds := (ms / 1000)%Z in
    if bool_decide (seconds < 60)%Z then str_of_int seconds +:+ "s"
    else
      let minutes := (seconds / 60)%Z in
      if bool_decide (minutes < 60)%Z
      then str_of_int minutes +:+ "m " +:+ str_of_int (seconds mod 60)%Z +:+ "s"
      else
        let hours := (minutes / 60)%Z in
        str_of_int hours +:+ "h " +:+ str_of_int (minutes mod 60)%Z +:+ "m".

End Dashboard.

(** ** [websocket.py], the typed broadcasts *)

Module Broadcasts.

(** The dictionaries [broadcast_event], [broadcast_stats] and
    [broadcast_device_status] build, by their ["type"] entry; [Dict] is the
    type of the dictionaries they wrap. *)
Inductive Message (Dict : Type) : Type :=
| new_event (event : Dict) (stats : option Dict)
| stats_update (stats : Dict)
| device_status (device : Dict).
Arguments new_event {Dict} event stats.
Arguments stats_update {Dict} stats.
Arguments device_status {Dict} device.

Section Typed.
Context {Dict : Type}.
Variable json_dumps : Message Dict -> string.
Variable send_text_raises : positive -> string -> bool.

(** [stats] defaults to [None]. *)
Definition broadcast_event (event : Dict) (stats : option Dict)
    (self : ConnectionManager.t) (wire : gmap positive (list string))
  : ConnectionManager.t * gmap positive (list string) :=
  ConnectionManager.broadcast json_dumps send_text_raises (new_event event stats) self wire.

Definition broadcast_stats (stats : Dict)
    (self : ConnectionManager.t) (wire : gmap positive (list string))
  : ConnectionManager.t * gmap positive (list string) :=
  ConnectionManager.broadcast json_dumps send_text_raises (stats_update stats) self wire.

Definition broadcast_device_status (device : Dict)
    (self : ConnectionManager.t) (wire : gmap positive (list string))
  : ConnectionManager.t * gmap positive (list string) :=
  ConnectionManager.broadcast json_dumps send_text_raises (device_status device) self wire.

End Typed.

End Broadcasts.

(** ** [main.py]: the push endpoints *)

Module Main.

(** [POST /api/push/subscribe]: the body is the subscription, the owner is
    left at its default; the answer is the ["success"] of the reply. *)
Definition subscribe_to_push (subscription_info : Json.t)
    (w : Push.World.t) : bool * Push.World.t :=
  Push.subscribe subscription_info "anonymous" w.

(** [POST /api/push/unsubscribe]: [data.get("endpoint", "")] of the body,
    which raises [AttributeError] when the body is no dictionary.  The
    handler catches nothing: an exception is the framework's 500. *)
Definition unsubscribe_from_push (data : Json.t)
    (w : Push.World.t) : Result bool * Push.World.t :=
  match data with
  | Json.object entries =>
      Push.unsubscribe (default (Json.str "") (Json.get "endpoint" entries)) w
  | _ => (Raises AttributeError, w)
  end.

End Main.

(** ** Reading the ingestion call *)

Module Ingest.

(** The input [e] with another [device_id] written into it. *)
Definition claim_device (device_id : string) (e : EventCreate.t) : EventCreate.t :=
  EventCreate.mk (EventCreate.type e) (EventCreate.timestamp e)
    (EventCreate.track_id e) (EventCreate.employee_id e)
    (EventCreate.license_plate e) (EventCreate.duration e) device_id.

Definition is_push (task : Events.Task) : bool :=
  match task with
  | Events.send_alert_notification_task _ _ _ => true
  | Events.broadcast_event_task _ => false
  end.

(** The event a task is about. *)
Definition task_event_id (task : Events.Task) : Z :=
  match task with
  | Events.send_alert_notification_task _ _ event_id => event_id
  | Events.broadcast_event_task event_dict => Events.EventDict.id event_dict
  end.

Definition gated (e : EventCreate.t) : bool :=
  bool_decide (EventCreate.type e ∈ Events.alert_types).

(** The event id of a broadcast task, the type and event id of a push task. *)
Definition broadcast_of (task : Events.Task) : option Z :=
  match task with
  | Events.broadcast_event_task event_dict => Some (Events.EventDict.id event_dict)
  | Events.send_alert_notification_task _ _ _ => None
  end.

Definition push_of (task : Events.Task) : option (string * Z) :=
  match task with
  | Events.send_alert_notification_task event_type _ event_id => Some (event_type, event_id)
  | Events.broadcast_event_task _ => None
  end.

(** [POST /api/events] as FastAPI runs it: the dependency [verify_api_key]
    first, then [create_events] with the device it returned, both on the
    session of the request. *)
Definition post_events (random_rowid : list Z -> string + Z)
    (flush_error : Event.t -> option string)
    (commit_error : list Event.t -> option string)
    (x_api_key : string) (now : Z) (request : BatchEventRequest.t) (db : Session.t)
  : Response BatchEventResponse.t * Session.t * list Events.Task :=
  match Events.verify_api_key x_api_key now db with
  | (HTTPException status_code detail, db') => (HTTPException status_code detail, db', [])
  | (Return device, db') =>
      Events.create_events random_rowid flush_error commit_error request device db'
  end.

End Ingest.

(** ** Reading the key files *)

Module KeyFiles.
(** The two key files and the count of generated pairs. *)
Definition key_state (w : Push.World.t) : option string * option string * nat :=
  (Push.World.vapid_private_pem w, Push.World.vapid_public_txt w,
   Push.World.generated w).
End KeyFiles.

(** ** Sample data *)

Module Sample.
(** Device D, active, with credential K1. *)
Definition device_D : Device.t :=
  Device.mk 1 "D" "Gate camera" "Pixel" "14" "K1" true 0.

Definition db : Session.t := Session.mk [device_D] [] [] [].

(** A store that accepts every write. *)
Definition accept {A} (_ : A) : option string := None.

(** A store that is full. *)
Definition refuse {A} (_ : A) : option string := Some "database or disk is full".

(** An engine that finds no unused key. *)
Definition no_rowid (_ : list Z) : string + Z := inl "database or disk is full".

Definition event_data (type : string) : EventCreate.t :=
  EventCreate.mk type 1000 7 None None 500 "SOMEONE-ELSE".

Definition request (types : list string) : BatchEventRequest.t :=
  BatchEventRequest.mk (event_data <$> types) "SOMEONE-ELSE".

(** Three connections; the second one is dead. *)
Definition connections : ConnectionManager.t :=
  ConnectionManager.mk {[1%positive; 2%positive; 3%positive]}.

Definition second_is_dead (c : positive) (_ : string) : bool :=
  bool_decide (c = 2%positive).

(** A key generator and a push service: the service answers 410 Gone for
    the endpoint [gone], 503 for [busy], and accepts the others. *)
Definition key_pairs (n : nat) : string * string :=
  ("PRIVATE-" +:+ pretty n, "PUBLIC-" +:+ pretty n).

Definition gone : string := "https://push.example/gone".
Definition busy : string := "https://push.example/busy".
Definition live : string := "https://push.example/live".

Definition service (subscription_info : Json.t)
    (data : Push.Payload.t) (vapid_private_key vapid_claims : string)
  : Push.WebPushResult :=
  match subscription_info with
  | Json.object entries =>
      match Json.get "endpoint" entries with
      | Some (Json.str endpoint) =>
          if bool_decide (endpoint = gone)
          then Push.RaisesWebPushException (Some (Push.HTTPResponse.mk 410))
          else if bool_decide (endpoint = busy)
          then Push.RaisesWebPushException (Some (Push.HTTPResponse.mk 503))
          else Push.Sent
      | _ => Push.RaisesException
      end
  | _ => Push.RaisesException
  end.

Definition subscription (endpoint : string) : Json.t :=
  Json.object
    [("endpoint", Json.str endpoint);
     ("keys", Json.object [("p256dh", Json.str "BNc"); ("auth", Json.str "tBH")])].

(** A fresh process: no key files, no subscriber. *)
Definition fresh : Push.World.t := Push.World.mk None None 0 [] [].

(** The same after [live] alone has subscribed. *)
Definition one_subscriber : Push.World.t :=
  snd (Push.subscribe (subscription live) "anonymous" fresh).

(** The same after [gone], [busy] and [live] have subscribed, in this order. *)
Definition subscribed : Push.World.t :=
  snd (Push.subscribe (subscription live) "anonymous"
    (snd (Push.subscribe (subscription busy) "anonymous"
      (snd (Push.subscribe (subscription gone) "anonymous" fresh))))).
End Sample.

(** ** More sample data *)

Module Fixture.
(** Newest first, by merge sort. *)
Definition newest_first : list Event.t -> list Event.t :=
  merge_sort (fun e1 e2 => (Event.timestamp e2 ≤ Event.timestamp e1)%Z)
    (H := fun e1 e2 => decide (Event.timestamp e2 ≤ Event.timestamp e1)%Z).

Definition event (id : Z) (type : string) (timestamp : Z) : Event.t :=
  Event.mk id type timestamp 1 "D" None None 0.

(** A store with five events of one day. *)
Definition day : Session.t :=
  Session.mk [Sample.device_D] []
    [event 1 "PERSON_ENTERED" 100; event 2 "VEHICLE_ENTERED" 200;
     event 3 "UNKNOWN_FACE_DETECTED" 300; event 4 "PERSON_EXITED" 400;
     event 5 "VEHICLE_ENTERED" 500] [].

(** Device D switched off. *)
Definition device_D_off : Device.t := Device.set_is_active false Sample.device_D.

Definition db_off : Session.t := Session.mk [device_D_off] [] [] [].

Definition registration_D : DeviceRegistration.t :=
  DeviceRegistration.mk "D" "Gate camera, new mount" "Pixel" "15".

(** The key file of the private key is there, the one of the public key is
    lost. *)
Definition half_keyed : Push.World.t :=
  Push.World.mk (Some "OLD-PRIVATE") None 0 [] [].

(** Response objects that are truthy whatever their status. *)
Definition always_truthy (_ : Push.HTTPResponse.t) : bool := true.
End Fixture.

(** * Properties *)

(** ** Queries on a table *)

Section Tables.
Context {A : Type}.
Implicit Types (p : A -> bool) (f : A -> A) (rows : list A).

Lemma first_None p rows :
  first p rows = None ↔ Forall (fun r => p r = false) rows.
Proof.
  unfold first. induction rows as [|r rows IH]; simpl.
  - split; [constructor | done].
  - destruct (p r) eqn:Hr.
    + split; [done | inversion 1; congruence].
    + rewrite IH. split; [by constructor | by inversion 1].
Qed.

Lemma first_Some_elem p rows r :
  first p rows = Some r → r ∈ rows ∧ p r = true.
Proof.
  unfold first. induction rows as [|r' rows IH]; simpl; [done|].
  destruct (p r') eqn:Hr.
  - intros [= <-]. split; [left | done].
  - intros H. destruct (IH H). split; [by right | done].
Qed.

Lemma update_first_length p f rows :
  length (update_first p f rows) = length rows.
Proof.
  induction rows as [|r rows IH]; simpl; [done|].
  destruct (p r); simpl; congruence.
Qed.

Lemma update_first_fmap {B} (g : A -> B) p f rows :
  (∀ r, g (f r) = g r) → g <$> update_first p f rows = g <$> rows.
Proof.
  intros Hg. induction rows as [|r rows IH]; [done|].
  cbn [update_first]. destruct (p r); rewrite !fmap_cons; [by rewrite Hg | by rewrite IH].
Qed.

Lemma first_update_first p f rows r :
  (∀ r, p r = true → p (f r) = true) →
  first p rows = Some r → first p (update_first p f rows) = Some (f r).
Proof.
  intros Hp. unfold first. induction rows as [|r' rows IH]; simpl; [done|].
  destruct (p r') eqn:Hr; simpl.
  - intros [= <-]. by rewrite (Hp _ Hr).
  - rewrite Hr. apply IH.
Qed.

(** Under a unique column [g], the rows sharing the [g] of a member are
    that member. *)
Lemma unique_column {B} (g : A -> B) rows r r' :
  NoDup (g <$> rows) → r ∈ rows → r' ∈ rows → g r = g r' → r = r'.
Proof.
  induction rows as [|x rows IH]; [by intros _ ?%elem_of_nil|].
  rewrite fmap_cons, NoDup_cons. intros [Hx Hnd] Hr Hr' Hg.
  apply elem_of_cons in Hr as [->|Hr]; apply elem_of_cons in Hr' as [->|Hr'];
    [done | | | by apply IH].
  - exfalso. apply Hx. rewrite Hg. by apply list_elem_of_fmap_2.
  - exfalso. apply Hx. rewrite <- Hg. by apply list_elem_of_fmap_2.
Qed.
End Tables.

(** ** Device authentication *)

Section Authentication.
Import Events.
Implicit Types (db : Session.t) (d : Device.t).

Lemma key_matches_set_last_seen x_api_key now d :
  key_matches x_api_key (Device.set_last_seen now d) = key_matches x_api_key d.
Proof. done. Qed.

Lemma verify_api_key_unauthorized x_api_key now db :
  (∀ d, d ∈ Session.devices db → Device.api_key d = x_api_key →
        Device.is_active d = false) →
  verify_api_key x_api_key now db
  = (HTTPException 401 "Invalid or inactive API key", db).
Proof.
  intros Hnone. unfold verify_api_key.
  destruct (first _ _) as [d|] eqn:Hfirst; [|done].
  apply first_Some_elem in Hfirst as [Hin Hm]. unfold key_matches in Hm.
  apply andb_prop in Hm as [Hk Ha]. apply bool_decide_eq_true in Hk.
  rewrite (Hnone d Hin Hk) in Ha. done.
Qed.

Lemma verify_api_key_first x_api_key db d :
  NoDup (Device.api_key <$> Session.devices db) →
  d ∈ Session.devices db → Device.api_key d = x_api_key →
  Device.is_active d = true →
  first (key_matches x_api_key) (Session.devices db) = Some d.
Proof.
  intros Hnd Hin Hk Ha.
  destruct (first _ _) as [d'|] eqn:Hfirst.
  - apply first_Some_elem in Hfirst as [Hin' Hm]. unfold key_matches in Hm.
    apply andb_prop in Hm as [Hk' _]. apply bool_decide_eq_true in Hk'.
    f_equal. apply (unique_column Device.api_key (Session.devices db)); congruence.
  - rewrite first_None, Forall_forall in Hfirst. specialize (Hfirst d Hin).
    unfold key_matches in Hfirst. rewrite Ha, bool_decide_eq_true_2 in Hfirst; done.
Qed.

(** Once the row of a credential is switched off, no row passes the filter
    for that credential. *)
Lemma deactivated_rows_rejected x_api_key device_id (rows : list Device.t) d :
  NoDup (Device.api_key <$> rows) → NoDup (Device.device_id <$> rows) →
  d ∈ rows → Device.api_key d = x_api_key → Device.device_id d = device_id →
  Forall (fun r => key_matches x_api_key r = false)
    (update_first (fun r => bool_decide (Device.device_id r = device_id))
       (Device.set_is_active false) rows).
Proof.
  induction rows as [|r rows IH]; [by intros _ _ ?%elem_of_nil|].
  rewrite !fmap_cons, !NoDup_cons. intros [Hk Hndk] [Hi Hndi] Hin Hkey Hid.
  cbn [update_first]. case_bool_decide as Hr.
  - assert (d = r) as ->.
    { apply elem_of_cons in Hin as [->|Hin]; [done|].
      exfalso. apply Hi. rewrite Hr, <- Hid. by apply list_elem_of_fmap_2. }
    constructor.
    + unfold key_matches. simpl. by rewrite andb_false_r.
    + apply Forall_forall. intros r' Hr'. unfold key_matches.
      rewrite bool_decide_eq_false_2; [done|]. intros Hk'.
      apply Hk. rewrite Hkey, <- Hk'. by apply list_elem_of_fmap_2.
  - apply elem_of_cons in Hin as [->|Hin]; [done|].
    constructor; [|by eapply IH].
    unfold key_matches. rewrite bool_decide_eq_false_2; [done|]. intros Hk'.
    apply Hk. rewrite Hk', <- Hkey. by apply list_elem_of_fmap_2.
Qed.

(** Under a unique credential column, touching the first row that passes the
    filter touches the one row that carries the credential. *)
Lemma update_first_key x_api_key now (rows : list Device.t) d :
  NoDup (Device.api_key <$> rows) →
  d ∈ rows → Device.api_key d = x_api_key → Device.is_active d = true →
  update_first (key_matches x_api_key) (Device.set_last_seen now) rows
  = (fun r => if bool_decide (Device.api_key r = x_api_key)
              then Device.set_last_seen now r else r) <$> rows.
Proof.
  induction rows as [|r rows IH]; [done|].
  rewrite !fmap_cons, NoDup_cons. intros [Hk Hnd] Hin Hkey Ha.
  cbn [update_first]. unfold key_matches at 1.
  apply elem_of_cons in Hin as [->|Hin].
  - rewrite Ha, bool_decide_eq_true_2 by done. simpl. f_equal.
    clear IH. induction rows as [|r' rows IH]; [done|].
    rewrite fmap_cons. rewrite fmap_cons, not_elem_of_cons in Hk.
    apply NoDup_cons in Hnd as [_ Hnd]. destruct Hk as [Hne Hk].
    rewrite bool_decide_eq_false_2 by congruence. f_equal. by apply IH.
  - assert (Device.api_key r ≠ x_api_key) as Hne.
    { intros Hk'. apply Hk. rewrite Hk', <- Hkey. by apply list_elem_of_fmap_2. }
    rewrite !bool_decide_eq_false_2 by done. simpl. f_equal. by apply IH.
Qed.
End Authentication.

(** C7. [verify_api_key] answers 401 whenever no row has the presented
    credential and is active.  When an active device [d] has it, the call
    returns that device with [last_seen] equal to the current time and every
    other field as in [d]; the row of the credential in the store now has
    that [last_seen] too, every other row and every other table is as it was;
    and once [d] is deactivated after such a success, its credential is
    answered 401 at any later time.  The two [NoDup] hypotheses are the
    [unique=True] constraints of the [api_key] and [device_id] columns. *)
Theorem verify_api_key_spec (x_api_key : string) (now : Z) (db : Session.t)
    (Hkeys : NoDup (Device.api_key <$> Session.devices db))
    (Hids : NoDup (Device.device_id <$> Session.devices db)) :
  let seen (r : Device.t) :=
    Device.mk (Device.id r) (Device.device_id r) (Device.device_name r)
      (Device.model r) (Device.os_version r) (Device.api_key r)
      (Device.is_active r) now in
  ((∀ d, d ∈ Session.devices db → Device.api_key d = x_api_key →
         Device.is_active d = false) →
   Events.verify_api_key x_api_key now db
   = (HTTPException 401 "Invalid or inactive API key", db))
  ∧
  (∀ d, d ∈ Session.devices db → Device.api_key d = x_api_key →
        Device.is_active d = true →
   ∃ device db',
     Events.verify_api_key x_api_key now db = (Return device, db')
     ∧ device = seen d
     ∧ Device.last_seen device = now
     ∧ Device.device_id device = Device.device_id d
     ∧ Device.api_key device = x_api_key
     ∧ Session.devices db'
       = (fun r => if bool_decide (Device.api_key r = x_api_key) then seen r else r)
           <$> Session.devices db
     ∧ device ∈ Session.devices db'
     ∧ (∀ r, r ∈ Session.devices db' → Device.api_key r = x_api_key →
             Device.last_seen r = now)
     ∧ Session.employees db' = Session.employees db
     ∧ Session.events db' = Session.events db
     ∧ Session.pending db' = Session.pending db
     ∧ ∃ db'',
         deactivate_device (Device.device_id d) db'
         = (Return (true, "Device deactivated"), db'')
         ∧ ∀ now', Events.verify_api_key x_api_key now' db''
                   = (HTTPException 401 "Invalid or inactive API key", db'')).
Proof.
  intros seen. split; [apply verify_api_key_unauthorized|].
  intros d Hin Hkey Hactive.
  pose proof (verify_api_key_first _ _ _ Hkeys Hin Hkey Hactive) as Hfirst.
  unfold Events.verify_api_key. rewrite Hfirst.
  set (rows' := update_first _ _ _).
  assert (Device.set_last_seen now d ∈ rows') as Hin'.
  { eapply first_Some_elem, first_update_first; [|exact Hfirst]. done. }
  assert (NoDup (Device.api_key <$> rows')) as Hkeys'.
  { unfold rows'. by rewrite update_first_fmap. }
  assert (NoDup (Device.device_id <$> rows')) as Hids'.
  { unfold rows'. by rewrite update_first_fmap. }
  assert (rows' = (fun r => if bool_decide (Device.api_key r = x_api_key)
                            then seen r else r) <$> Session.devices db) as Hrows'.
  { by apply (update_first_key _ _ _ d). }
  exists (Device.set_last_seen now d). eexists. split; [done|]. simpl.
  do 5 (split; [done|]). split; [done|].
  split.
  { intros r Hr Hk. rewrite Hrows' in Hr.
    apply list_elem_of_fmap in Hr as (r0 & -> & _).
    destruct (bool_decide (Device.api_key r0 = x_api_key)) eqn:Hk0; [done|].
    by apply bool_decide_eq_false in Hk0. }
  do 3 (split; [done|]).
  unfold deactivate_device. simpl.
  destruct (first _ rows') as [r|] eqn:Hr.
  - eexists. split; [done|]. intros now'.
    apply verify_api_key_unauthorized. simpl. intros r' Hr' Hk'.
    pose proof (deactivated_rows_rejected x_api_key _ rows' _
                  Hkeys' Hids' Hin' Hkey eq_refl) as Hall.
    rewrite Forall_forall in Hall. specialize (Hall r' Hr').
    unfold Events.key_matches in Hall.
    rewrite bool_decide_eq_true_2 in Hall by done. done.
  - exfalso. rewrite first_None, Forall_forall in Hr.
    specialize (Hr _ Hin'). simpl in Hr.
    by rewrite bool_decide_eq_true_2 in Hr.
Qed.

(** ** Batch ingestion *)

Section Ingestion.
Import Events.
Variable random_rowid : list Z -> string + Z.
Variable flush_error : Event.t -> option string.
Variable commit_error : list Event.t -> option string.
Implicit Types (db : Session.t) (device : Device.t) (events : list EventCreate.t).

Local Open Scope Z_scope.

Lemma foldr_max_spec (id : Z) (ids : list Z) :
  Forall (fun i => i ≤ foldr Z.max id ids) (id :: ids)
  ∧ foldr Z.max id ids ∈ id :: ids.
Proof.
  induction ids as [|i ids [Hle Hin]]; simpl.
  - split; [by repeat constructor | left].
  - apply Forall_cons in Hle as [Hid Hle]. split.
    + constructor; [lia|]. constructor; [lia|].
      eapply Forall_impl; [exact Hle|]. simpl. intros; lia.
    + destruct (Z.max_spec i (foldr Z.max id ids)) as [[_ ->]|[_ ->]].
      * apply elem_of_cons in Hin as [->|Hin]; [left | right; by right].
      * right. left.
Qed.

Lemma first_free (rows : list Event.t) :
  ∃ first,
    Forall (fun e => Event.id e < first) rows
    ∧ (rows = [] ∧ first = 1 ∨ first - 1 ∈ Event.id <$> rows).
Proof.
  destruct rows as [|e es]; [exists 1; split; [constructor | by left]|].
  destruct (foldr_max_spec (Event.id e) (Event.id <$> es)) as [Hle Hin].
  exists (foldr Z.max (Event.id e) (Event.id <$> es) + 1). split.
  - rewrite <- fmap_cons, Forall_fmap in Hle.
    eapply Forall_impl; [exact Hle|]. simpl. intros; lia.
  - right. rewrite fmap_cons.
    by replace (foldr Z.max (Event.id e) (Event.id <$> es) + 1 - 1)
      with (foldr Z.max (Event.id e) (Event.id <$> es)) by lia.
Qed.

(** Below the largest key there is, the next key is one more than the
    largest key in the table, or 1 in an empty table. *)
Lemma next_id_spec (rows pending : list Event.t) devices employees :
  Forall (fun e => Event.id e < Session.max_rowid) (rows ++ pending) →
  ∃ id,
    Session.next_id random_rowid (Session.mk devices employees rows pending) = inr id
    ∧ Forall (fun e => Event.id e < id) (rows ++ pending)
    ∧ (rows ++ pending = [] ∧ id = 1
       ∨ id - 1 ∈ Event.id <$> rows ++ pending).
Proof.
  intros Hroom. unfold Session.next_id. simpl.
  destruct (rows ++ pending) as [|e es] eqn:Hrows.
  - exists 1. split; [done|]. split; [constructor | by left].
  - rewrite fmap_cons.
    destruct (foldr_max_spec (Event.id e) (Event.id <$> es)) as [Hle Hin].
    set (largest := foldr Z.max (Event.id e) (Event.id <$> es)) in *.
    assert (largest < Session.max_rowid) as Hlt.
    { rewrite <- fmap_cons in Hin. apply list_elem_of_fmap in Hin as (r & -> & Hr).
      rewrite Forall_forall in Hroom. by apply Hroom. }
    rewrite (proj2 (Z.ltb_lt _ _) Hlt). exists (largest + 1).
    split; [done|]. split.
    + rewrite <- fmap_cons, Forall_fmap in Hle.
      eapply Forall_impl; [exact Hle|]. simpl. intros; lia.
    + right. by replace (largest + 1 - 1) with largest by lia.
Qed.

Lemma add_events_accepted device events :
  ∀ events_created created_events db,
  Forall (fun e => ∀ id, flush_error (new_event device e id) = None) events →
  Z.of_nat (length events) ≤ Session.max_rowid →
  Forall (fun e => Event.id e + Z.of_nat (length events) ≤ Session.max_rowid)
    (Session.events db ++ Session.pending db) →
  ∃ rows first,
    add_events random_rowid flush_error device events events_created created_events db
    = inr (events_created + Z.of_nat (length events), created_events ++ rows,
           Session.flushed rows db)
    ∧ Forall2 (fun e row => row = new_event device e (Event.id row)) events rows
    ∧ Event.id <$> rows = seqZ first (Z.of_nat (length events))
    ∧ Forall (fun e => Event.id e < first) (Session.events db ++ Session.pending db)
    ∧ (Session.events db ++ Session.pending db = [] ∧ first = 1
       ∨ first - 1 ∈ Event.id <$> Session.events db ++ Session.pending db).
Proof.
  induction events as [|e events IH]; intros n created db Hok Hlen Hroom.
  - destruct db as [devices employees rows pending].
    destruct (first_free (rows ++ pending)) as (id & Hnew & Hfirst).
    exists [], id. simpl. rewrite Z.add_0_r, !app_nil_r. unfold Session.flushed.
    simpl. rewrite app_nil_r. repeat split; try done.
  - apply Forall_cons in Hok as [He Hok]. rewrite length_cons, Nat2Z.inj_succ in Hlen, Hroom.
    destruct db as [devices employees rows pending].
    destruct (next_id_spec rows pending devices employees) as (id & Hid & Hnew & Hfirst).
    { eapply Forall_impl; [exact Hroom|]. simpl. intros; lia. }
    cbn [add_events]. unfold add_flush. rewrite Hid, He.
    set (event := new_event device e id).
    assert (id + Z.of_nat (length events) ≤ Session.max_rowid) as Hfit.
    { destruct Hfirst as [[_ ->]|Hin]; [lia|].
      apply list_elem_of_fmap in Hin as (r & Hr & Hin).
      rewrite Forall_forall in Hroom. specialize (Hroom r Hin). simpl in Hroom. lia. }
    destruct (IH (n + 1) (created ++ [event])
                (Session.flushed [event] (Session.mk devices employees rows pending)) Hok)
      as (rows' & first' & Heq & Hrows & Hids & Hnew' & Hfirst'); [lia| |].
    { unfold Session.flushed. simpl. rewrite app_assoc. apply Forall_app. split.
      - eapply Forall_impl; [exact Hroom|]. simpl. intros; lia.
      - by repeat constructor. }
    unfold Session.flushed in Heq, Hnew', Hfirst'. simpl in Heq, Hnew', Hfirst'.
    rewrite app_assoc in Hnew', Hfirst'.
    apply Forall_app in Hnew' as [Hold Hevent].
    rewrite Forall_singleton in Hevent. unfold event in Hevent. simpl in Hevent.
    assert (first' = id + 1) as ->.
    { destruct Hfirst' as [[Hnil _]|Hin]; [by destruct (rows ++ pending)|].
      rewrite fmap_app in Hin. apply elem_of_app in Hin as [Hin|Hin].
      - apply list_elem_of_fmap in Hin as (r & Hr & Hin).
        rewrite Forall_forall in Hnew. specialize (Hnew r Hin). simpl in Hnew. lia.
      - apply list_elem_of_singleton in Hin. unfold event in Hin. simpl in Hin. lia. }
    exists (event :: rows'), id. unfold Session.flushed. simpl. rewrite Heq.
    rewrite <- !app_assoc. simpl.
    split; [do 3 f_equal; lia|].
    split; [by constructor|].
    split; [|done].
    change (list_fmap Event.t Z Event.id rows') with (Event.id <$> rows').
    rewrite Hids, Nat2Z.inj_succ, (seqZ_cons id), Z.pred_succ by lia. done.
Qed.

Lemma seqZ_sorted (first : Z) (n : nat) :
  StronglySorted Z.lt (seqZ first (Z.of_nat n)).
Proof.
  revert first. induction n as [|n IH]; intros first; [constructor|].
  rewrite Nat2Z.inj_succ, seqZ_cons by lia.
  replace (Z.pred (Z.succ (Z.of_nat n))) with (Z.of_nat n) by lia.
  constructor; [apply IH|].
  apply Forall_forall. intros i Hi. apply elem_of_seqZ in Hi. lia.
Qed.

(** Flushing touches the open transaction only. *)
Lemma add_events_rollback device events :
  ∀ events_created created_events db,
  match add_events random_rowid flush_error device events events_created created_events db with
  | inl (_, db1) => Session.rollback db1 = Session.rollback db
  | inr (_, _, db1) => Session.rollback db1 = Session.rollback db
  end.
Proof.
  induction events as [|e events IH]; intros n created db; [done|].
  cbn [add_events]. unfold add_flush.
  destruct (Session.next_id random_rowid db) as [msg|id]; [done|].
  destruct (flush_error _); [done|].
  specialize (IH (n + 1) (created ++ [new_event device e id])
                (Session.flushed [new_event device e id] db)).
  unfold Session.flushed in IH. by destruct (add_events _ _ _ _ _ _ _) as [[? ?]|[[? ?] ?]].
Qed.

Lemma add_events_refused device events :
  ∀ events_created created_events db,
  Exists (fun e => ∀ id, is_Some (flush_error (new_event device e id))) events →
  ∃ msg db1,
    add_events random_rowid flush_error device events events_created created_events db
    = inl (msg, db1).
Proof.
  induction events as [|e events IH]; intros n created db Hbad;
    [by apply Exists_nil in Hbad|].
  cbn [add_events]. unfold add_flush.
  destruct (Session.next_id random_rowid db) as [msg|id]; [by eauto|].
  destruct (flush_error (new_event device e id)) as [msg|] eqn:He; [by eauto|].
  apply Exists_cons in Hbad as [Hbad|Hbad].
  - destruct (Hbad id) as [? ?]. congruence.
  - by apply IH.
Qed.

(** Whatever makes [create_events] fail, it fails with status 500, leaves
    the session rolled back and queues no task. *)
Lemma create_events_failure request device db status_code detail db' tasks :
  create_events random_rowid flush_error commit_error request device db
  = (HTTPException status_code detail, db', tasks) →
  status_code = 500 ∧ db' = Session.rollback db ∧ tasks = [].
Proof.
  unfold create_events.
  pose proof (add_events_rollback device (BatchEventRequest.events request) 0 [] db) as Hrb.
  destruct (add_events _ _ _ _ _ _ _) as [[msg db1]|[[n created] db1]].
  - intros [= <- _ <- <-]. done.
  - unfold commit. destruct (commit_error _); [|done].
    intros [= <- _ <- <-]. done.
Qed.
End Ingestion.

Lemma StronglySorted_lt_NoDup (ids : list Z) :
  StronglySorted Z.lt ids → NoDup ids.
Proof.
  induction 1 as [|n ids _ IH Hall]; constructor; [|done].
  intros Hin. rewrite Forall_forall in Hall. specialize (Hall n Hin). lia.
Qed.

Lemma rollback_clean (db : Session.t) :
  Session.pending db = [] → Session.rollback db = db.
Proof. destruct db. simpl. by intros ->. Qed.

(** C5. When the store accepts every row of the batch and the commit, and
    the table has room for the batch below the largest key there is, a call
    of [create_events] on a session with no open transaction answers success
    with [processed] the number of inputs, and the events table grows by
    exactly one row per input, in input order.  Each row has the type,
    timestamp, track id, employee id, licence plate and duration of its
    input, and the [device_id] of the authenticated device whatever the input
    and the envelope say.  The keys of the new rows are consecutive, from 1 in
    an empty table and from one more than the largest key otherwise: they are
    strictly increasing, pairwise distinct, above every key already in the
    table and no larger than the largest key there is. *)
Theorem create_events_persists_batch
    (random_rowid : list Z → string + Z)
    (flush_error : Event.t → option string)
    (commit_error : list Event.t → option string)
    (request : BatchEventRequest.t) (device : Device.t) (db : Session.t)
    (Hclean : Session.pending db = [])
    (Hflush : Forall (fun e => ∀ id, flush_error (Events.new_event device e id) = None)
                (BatchEventRequest.events request))
    (Hcommit : ∀ rows, commit_error rows = None)
    (Hbatch : (Z.of_nat (length (BatchEventRequest.events request))
               ≤ Session.max_rowid)%Z)
    (Hroom : Forall (fun e => (Event.id e
                               + Z.of_nat (length (BatchEventRequest.events request))
                               ≤ Session.max_rowid)%Z)
               (Session.events db)) :
  let n := Z.of_nat (length (BatchEventRequest.events request)) in
  ∃ created first tasks,
    Events.create_events random_rowid flush_error commit_error request device db
    = (Return (BatchEventResponse.mk true n (Some (Events.success_message n))),
       Session.mk (Session.devices db) (Session.employees db)
         (Session.events db ++ created) [],
       tasks)
    ∧ length created = length (BatchEventRequest.events request)
    ∧ Forall2 (fun e row =>
                 Event.event_type row = EventCreate.type e
                 ∧ Event.timestamp row = EventCreate.timestamp e
                 ∧ Event.track_id row = EventCreate.track_id e
                 ∧ Event.device_id row = Device.device_id device
                 ∧ Event.employee_id row = EventCreate.employee_id e
                 ∧ Event.license_plate row = EventCreate.license_plate e
                 ∧ Event.duration row = EventCreate.duration e)
        (BatchEventRequest.events request) created
    ∧ Forall (fun row => Event.device_id row = Device.device_id device) created
    ∧ Event.id <$> created = seqZ first n
    ∧ (Session.events db = [] → first = 1%Z)
    ∧ (Session.events db ≠ [] → (first - 1)%Z ∈ Event.id <$> Session.events db)
    ∧ StronglySorted Z.lt (Event.id <$> created)
    ∧ NoDup (Event.id <$> created)
    ∧ Forall (fun row =>
                Forall (fun old => (Event.id old < Event.id row)%Z) (Session.events db)
                ∧ (Event.id row ≤ Session.max_rowid)%Z) created.
Proof.
  intros n. unfold Events.create_events.
  destruct (add_events_accepted random_rowid flush_error device
              (BatchEventRequest.events request) 0 [] db Hflush Hbatch)
    as (rows & first & Heq & Hrows & Hids & Hnew & Hfirst).
  { by rewrite Hclean, app_nil_r. }
  rewrite Hclean, app_nil_r in Hnew, Hfirst.
  rewrite Heq. unfold Events.commit, Session.flushed. simpl.
  rewrite Hcommit, Hclean. simpl. fold n.
  exists rows, first. eexists. split; [done|].
  split; [symmetry; by eapply Forall2_length|].
  split.
  { clear -Hrows. induction Hrows as [|e row es rows Hrow _ IH]; constructor; [|done].
    by rewrite Hrow. }
  split.
  { clear -Hrows. induction Hrows as [|e row es rows Hrow _ IH]; constructor; [|done].
    by rewrite Hrow. }
  split; [done|].
  split; [intros Hnil; destruct Hfirst as [[_ ->]|Hin]; [done|];
          rewrite Hnil in Hin; by apply elem_of_nil in Hin|].
  split; [intros Hne; by destruct Hfirst as [[Hnil _]|Hin]|].
  assert (StronglySorted Z.lt (Event.id <$> rows)) as Hsorted.
  { rewrite Hids. apply seqZ_sorted. }
  split; [done|].
  split; [by apply StronglySorted_lt_NoDup|].
  apply Forall_forall. intros row Hrow.
  assert (Event.id row ∈ seqZ first n) as Hid.
  { unfold n. rewrite <- Hids. by apply list_elem_of_fmap_2. }
  apply elem_of_seqZ in Hid. split.
  - eapply Forall_impl; [exact Hnew|]. simpl. intros; lia.
  - destruct Hfirst as [[_ ->]|Hin]; [lia|].
    apply list_elem_of_fmap in Hin as (old & Hold & Hin).
    rewrite Forall_forall in Hroom. specialize (Hroom old Hin). simpl in Hroom.
    fold n in Hroom. lia.
Qed.

(** C3. When the store refuses the INSERT of some event of the batch, or
    refuses the COMMIT, [create_events] on a session with no open transaction
    raises an [HTTPException] with status 500, the session afterwards is the
    session before the call (no row of the batch in the events table, nothing
    pending), and no task has been queued. *)
Theorem create_events_atomic
    (random_rowid : list Z → string + Z)
    (flush_error : Event.t → option string)
    (commit_error : list Event.t → option string)
    (request : BatchEventRequest.t) (device : Device.t) (db : Session.t)
    (Hclean : Session.pending db = [])
    (Hfail : Exists (fun e => ∀ id, is_Some (flush_error (Events.new_event device e id)))
               (BatchEventRequest.events request)
             ∨ ∀ rows, is_Some (commit_error rows)) :
  ∃ detail,
    Events.create_events random_rowid flush_error commit_error request device db
    = (HTTPException 500 detail, db, []).
Proof.
  assert (∃ status_code detail db' tasks,
            Events.create_events random_rowid flush_error commit_error request device db
            = (HTTPException status_code detail, db', tasks)) as (st & detail & db' & tasks & Heq).
  { unfold Events.create_events.
    destruct (Events.add_events _ _ _ _ _ _ _) as [[msg db1]|[[k created] db1]] eqn:Hadd;
      [by eauto|].
    destruct Hfail as [Hbad|Hbad].
    - destruct (add_events_refused random_rowid flush_error device _ 0%Z [] db Hbad)
        as (? & ? & ?).
      congruence.
    - unfold Events.commit. destruct (Hbad (Session.pending db1)) as [msg ->]. by eauto. }
  destruct (create_events_failure _ _ _ _ _ _ _ _ _ _ Heq) as (-> & -> & ->).
  exists detail. by rewrite Heq, rollback_clean.
Qed.

Lemma sample_keys_unique : NoDup (Device.api_key <$> Session.devices Sample.db).
Proof. apply NoDup_singleton. Qed.

Lemma sample_ids_unique : NoDup (Device.device_id <$> Session.devices Sample.db).
Proof. apply NoDup_singleton. Qed.

Lemma verify_api_key_spec_witness :
  Events.verify_api_key "WRONG" 1700000000 Sample.db
  = (HTTPException 401 "Invalid or inactive API key", Sample.db)
  ∧ ∃ device db',
      Events.verify_api_key "K1" 1700000000 Sample.db = (Return device, db')
      ∧ device = Device.mk 1 "D" "Gate camera" "Pixel" "14" "K1" true 1700000000
      ∧ Device.last_seen device = 1700000000%Z
      ∧ device ∈ Session.devices db'
      ∧ ∃ db'',
          deactivate_device "D" db' = (Return (true, "Device deactivated"), db'')
          ∧ ∀ now', Events.verify_api_key "K1" now' db''
                    = (HTTPException 401 "Invalid or inactive API key", db'').
Proof.
  split.
  - apply (verify_api_key_spec "WRONG" 1700000000 Sample.db
             sample_keys_unique sample_ids_unique).
    intros d Hd Hk. apply list_elem_of_singleton in Hd. subst d. discriminate Hk.
  - destruct (proj2 (verify_api_key_spec "K1" 1700000000 Sample.db
                       sample_keys_unique sample_ids_unique)
                Sample.device_D (list_elem_of_here _ _) eq_refl eq_refl)
      as (device & db' & Hv & Hdev & Hseen & _ & _ & _ & Hin & _ & _ & _ & _
          & db'' & Hd & Hafter).
    exists device, db'. split; [exact Hv|]. split; [exact Hdev|].
    split; [exact Hseen|]. split; [exact Hin|].
    exists db''. split; [exact Hd | exact Hafter].
Defined.

Lemma create_events_persists_batch_witness :
  ∃ created tasks,
    Events.create_events Sample.no_rowid Sample.accept Sample.accept
      (Sample.request ["UNKNOWN_FACE_DETECTED"; "PERSON_ENTERED"; "VEHICLE_ENTERED"])
      Sample.device_D Sample.db
    = (Return (BatchEventResponse.mk true 3 (Some "Successfully processed 3 events")),
       Session.mk [Sample.device_D] [] created [], tasks)
    ∧ length created = 3
    ∧ Forall (fun row => Event.device_id row = "D") created
    ∧ Event.id <$> created = [1; 2; 3]%Z.
Proof.
  assert (Forall (fun e => ∀ id, @Sample.accept Event.t
                                  (Events.new_event Sample.device_D e id) = None)
            (BatchEventRequest.events
               (Sample.request ["UNKNOWN_FACE_DETECTED"; "PERSON_ENTERED"; "VEHICLE_ENTERED"])))
    as Hflush by (apply Forall_forall; reflexivity).
  destruct (create_events_persists_batch Sample.no_rowid Sample.accept Sample.accept
              (Sample.request ["UNKNOWN_FACE_DETECTED"; "PERSON_ENTERED"; "VEHICLE_ENTERED"])
              Sample.device_D Sample.db eq_refl Hflush (fun _ => eq_refl)
              ltac:(vm_compute; discriminate) (Forall_nil_2 _))
    as (created & first & tasks & Heq & Hlen & _ & Hdev & Hids & Hfirst & _).
  exists created, tasks. split; [exact Heq|]. split; [exact Hlen|].
  split; [exact Hdev|]. rewrite Hids, (Hfirst eq_refl). reflexivity.
Defined.

Lemma create_events_atomic_witness :
  ∃ detail,
    Events.create_events Sample.no_rowid
      (fun row => if bool_decide (Event.event_type row = "PERSON_ENTERED")
                  then Some "database or disk is full" else None)
      Sample.accept
      (Sample.request ["UNKNOWN_FACE_DETECTED"; "PERSON_ENTERED"; "VEHICLE_ENTERED"])
      Sample.device_D Sample.db
    = (HTTPException 500 detail, Sample.db, []).
Proof.
  apply create_events_atomic; [reflexivity|].
  left. apply Exists_cons_tl, Exists_cons_hd. intros id. by eexists.
Defined.

(** ** Fan-out tasks of the ingestion call *)

(** Every created event gets its broadcast task, first in line. *)
Lemma tasks_for_broadcast (event : Event.t) (db : Session.t) :
  ∃ event_dict rest,
    Events.tasks_for event db = Events.broadcast_event_task event_dict :: rest
    ∧ Events.EventDict.id event_dict = Event.id event
    ∧ Events.EventDict.event_type event_dict = Event.event_type event.
Proof. unfold Events.tasks_for. by eexists _, _. Qed.

(** The push task is queued for exactly the two types of the gate in
    [create_events]. *)
Lemma tasks_for_alert (event : Event.t) (db : Session.t) :
  (∃ event_type details event_id,
     Events.send_alert_notification_task event_type details event_id
     ∈ Events.tasks_for event db)
  ↔ Event.event_type event ∈ ["UNKNOWN_FACE_DETECTED"; "LOITERING_DETECTED"].
Proof.
  unfold Events.tasks_for. fold Events.alert_types. case_bool_decide as Hgate.
  - split; [done|]. intros _. eexists _, _, _. right. left.
  - split; [|done]. intros (t & d & i & Hin).
    apply elem_of_cons in Hin as [Hin|Hin]; [done|]. by apply elem_of_nil in Hin.
Qed.

(** C1. A batch of one VEHICLE_ENTERED event from device D is accepted and
    persisted, and the only task queued for the new event is the broadcast:
    the gate of [create_events] lists UNKNOWN_FACE_DETECTED and
    LOITERING_DETECTED, so no push task is queued for VEHICLE_ENTERED, a type
    the template table of [send_alert_notification] does notify for. *)
Theorem create_events_vehicle_entered_not_pushed :
  Events.create_events Sample.no_rowid Sample.accept Sample.accept
    (Sample.request ["VEHICLE_ENTERED"]) Sample.device_D Sample.db
  = (Return (BatchEventResponse.mk true 1 (Some "Successfully processed 1 events")),
     Session.mk [Sample.device_D] []
       [Event.mk 1 "VEHICLE_ENTERED" 1000 7 "D" None None 500] [],
     [Events.broadcast_event_task
        (Events.EventDict.mk 1 "VEHICLE_ENTERED" 1000 None None 500)])
  ∧ Push.template "VEHICLE_ENTERED"
    = Some ("Vehicle Entered", "A vehicle has entered the premises").
Proof. split; reflexivity. Qed.

(** ** Broadcast to the live connections *)

Section Broadcast.
Import ConnectionManager.
Context {Message : Type}.
Variable json_dumps : Message -> string.
Variable send_text_raises : positive -> string -> bool.
Implicit Types (c : positive) (wire : gmap positive (list string)).

Lemma frames_insert c c' texts wire :
  frames c (<[c' := texts]> wire)
  = if bool_decide (c = c') then texts else frames c wire.
Proof.
  unfold frames. case_bool_decide as Hc.
  - subst. by rewrite lookup_insert_eq.
  - by rewrite lookup_insert_ne.
Qed.

(** The loop of [broadcast] over distinct connections [l]: a connection
    ends in [disconnected] when it was there or when its send raised, and
    the wire of a connection grows by the one text when its send went
    through. *)
Lemma broadcast_loop text (l : list positive) :
  NoDup l →
  ∀ (disconnected : gset positive) wire,
    let r := foldl (broadcast_step send_text_raises text) (disconnected, wire) l in
    (∀ c, c ∈ fst r ↔ c ∈ disconnected ∨ (c ∈ l ∧ send_text_raises c text = true))
    ∧ (∀ c, frames c (snd r)
            = if bool_decide (c ∈ l) && negb (send_text_raises c text)
              then frames c wire ++ [text] else frames c wire).
Proof.
  induction 1 as [|x l Hx Hnd IH]; intros disconnected wire.
  - simpl. split; intros c; [set_solver | done].
  - intros r. subst r. cbn [foldl].
    assert (broadcast_step send_text_raises text (disconnected, wire) x
            = if send_text_raises x text then (disconnected ∪ {[x]}, wire)
              else (disconnected, <[x := frames x wire ++ [text]]> wire)) as ->.
    { unfold broadcast_step, send_text. simpl. by destruct (send_text_raises x text). }
    destruct (send_text_raises x text) eqn:Hraise.
    + destruct (IH (disconnected ∪ {[x]}) wire) as [Hd Hw].
      split; intros c.
      * rewrite Hd. set_solver.
      * rewrite Hw. destruct (decide (c = x)) as [->|Hne].
        -- rewrite Hraise, !andb_false_r. done.
        -- by rewrite (bool_decide_ext (c ∈ x :: l) (c ∈ l)) by set_solver.
    + destruct (IH disconnected (<[x := frames x wire ++ [text]]> wire)) as [Hd Hw].
      split; intros c.
      * rewrite Hd. split; [set_solver|].
        intros [?|[Hin ?]]; [by left|]. right. split; [|done].
        apply elem_of_cons in Hin as [->|?]; [congruence | done].
      * rewrite Hw, frames_insert. destruct (decide (c = x)) as [->|Hne].
        -- rewrite (bool_decide_eq_false_2 (x ∈ l)) by done.
           rewrite !bool_decide_eq_true_2 by set_solver. by rewrite Hraise.
        -- rewrite (bool_decide_eq_false_2 (c = x)) by done.
           by rewrite (bool_decide_ext (c ∈ x :: l) (c ∈ l)) by set_solver.
Qed.

(** A connection outside the set is not written to and stays outside. *)
Lemma broadcast_outsider (message : Message) (self : t) wire c :
  c ∉ active_connections self →
  (c ∉ active_connections (fst (broadcast json_dumps send_text_raises message self wire)))
  ∧ (frames c (snd (broadcast json_dumps send_text_raises message self wire))
     = frames c wire).
Proof.
  intros Hc. unfold broadcast. case_bool_decide; [done|].
  destruct (broadcast_loop (json_dumps message) (elements (active_connections self))
              (NoDup_elements _) ∅ wire) as [Hd Hw].
  destruct (foldl _ _ _) as [disconnected wire']. simpl in *.
  split; [set_solver|].
  rewrite Hw, bool_decide_eq_false_2; [done|]. by rewrite elem_of_elements.
Qed.
End Broadcast.

(** C2. After [broadcast] of a message over any set of registered
    connections, a registered connection whose send raised is no longer in
    [active_connections] and was written nothing, and a registered connection
    whose send went through is still in [active_connections] and was written
    the serialised message exactly once, after what it had been sent before;
    this holds for each connection whatever happens on the others. *)
Theorem broadcast_prunes_and_delivers {Message : Type}
    (json_dumps : Message -> string) (send_text_raises : positive -> string -> bool)
    (message : Message) (self : ConnectionManager.t)
    (wire : gmap positive (list string)) (c : positive)
    (Hc : c ∈ ConnectionManager.active_connections self) :
  let after := ConnectionManager.broadcast json_dumps send_text_raises message self wire in
  if send_text_raises c (json_dumps message)
  then (c ∉ ConnectionManager.active_connections (fst after))
       ∧ (ConnectionManager.frames c (snd after) = ConnectionManager.frames c wire)
  else (c ∈ ConnectionManager.active_connections (fst after))
       ∧ (ConnectionManager.frames c (snd after)
          = ConnectionManager.frames c wire ++ [json_dumps message]).
Proof.
  intros after. unfold after, ConnectionManager.broadcast.
  case_bool_decide as Hempty; [set_solver|].
  destruct (broadcast_loop send_text_raises (json_dumps message)
              (elements (ConnectionManager.active_connections self))
              (NoDup_elements _) ∅ wire) as [Hd Hw].
  destruct (foldl _ _ _) as [disconnected wire']. simpl in *.
  specialize (Hd c). specialize (Hw c).
  rewrite bool_decide_eq_true_2 in Hw by (by rewrite elem_of_elements).
  rewrite elem_of_elements in Hd.
  destruct (send_text_raises c (json_dumps message)); simpl in Hw.
  - split; [set_solver | done].
  - split; [|done]. apply elem_of_difference. split; [done|].
    rewrite Hd. intros [?|[_ ?]]; [set_solver | done].
Qed.

Lemma broadcast_prunes_and_delivers_witness :
  let after := ConnectionManager.broadcast (fun m : string => m) Sample.second_is_dead
                 "new_event" Sample.connections ∅ in
  ((2%positive ∉ ConnectionManager.active_connections (fst after))
   ∧ (ConnectionManager.frames 2 (snd after) = []))
  ∧ ((3%positive ∈ ConnectionManager.active_connections (fst after))
     ∧ (ConnectionManager.frames 3 (snd after) = ["new_event"])).
Proof.
  assert (2%positive ∈ ConnectionManager.active_connections Sample.connections) as H2
    by (unfold Sample.connections; simpl; set_solver).
  assert (3%positive ∈ ConnectionManager.active_connections Sample.connections) as H3
    by (unfold Sample.connections; simpl; set_solver).
  split.
  - exact (broadcast_prunes_and_delivers (fun m : string => m) Sample.second_is_dead
             "new_event" Sample.connections ∅ 2%positive H2).
  - exact (broadcast_prunes_and_delivers (fun m : string => m) Sample.second_is_dead
             "new_event" Sample.connections ∅ 3%positive H3).
Defined.

(** ** Dictionaries *)

Section Dictionaries.
Context {K V : Type} `{EqDecision K}.
Implicit Types (k : K) (v : V) (d : list (K * V)) (R : list K).

Lemma get_None k d : PyDict.get k d = None ↔ k ∉ PyDict.keys d.
Proof.
  unfold PyDict.get, PyDict.keys. induction d as [|[k' v'] d IH].
  - simpl. split; [intros _; apply not_elem_of_nil | done].
  - rewrite fmap_cons, not_elem_of_cons. cbn [List.find fst].
    case_bool_decide as Hk; simpl.
    + split; [done | intros [Hne _]; congruence].
    + rewrite IH. split; [intros ?; split; [congruence | done] | by intros [_ ?]].
Qed.

Lemma elem_of_keys k d : k ∈ PyDict.keys d ↔ is_Some (PyDict.get k d).
Proof.
  destruct (PyDict.get k d) as [v|] eqn:Hget.
  - split; [by eexists|]. intros _.
    destruct (decide (k ∈ PyDict.keys d)) as [|Hout]; [done|].
    apply get_None in Hout. congruence.
  - apply get_None in Hget. split; [done | by intros [? ?]].
Qed.

Lemma get_Some_elem k v d : PyDict.get k d = Some v → (k, v) ∈ d.
Proof.
  unfold PyDict.get. induction d as [|[k' v'] d IH]; [done|].
  cbn [List.find fst]. case_bool_decide as Hk; simpl.
  - intros [= <-]. subst. left.
  - intros Hget. right. by apply IH.
Qed.

(** In a dictionary, whose keys are distinct, an item is what [get] finds. *)
Lemma get_elem k v d : NoDup (PyDict.keys d) → (k, v) ∈ d → PyDict.get k d = Some v.
Proof.
  unfold PyDict.get, PyDict.keys. induction d as [|[k' v'] d IH]; [by intros _ ?%elem_of_nil|].
  rewrite fmap_cons, NoDup_cons. intros [Hk' Hnd] Hin. cbn [List.find fst].
  apply elem_of_cons in Hin as [[= -> ->]|Hin].
  - by rewrite bool_decide_eq_true_2.
  - rewrite bool_decide_eq_false_2; [by apply IH|]. intros ->.
    apply Hk'. apply list_elem_of_fmap. by exists (k, v).
Qed.

Lemma get_set_eq k v d : PyDict.get k (PyDict.set k v d) = Some v.
Proof.
  unfold PyDict.get. induction d as [|[k' v'] d IH]; simpl.
  - by rewrite bool_decide_eq_true_2.
  - case_bool_decide as Hk; simpl.
    + by rewrite bool_decide_eq_true_2.
    + by rewrite bool_decide_eq_false_2.
Qed.

Lemma get_set_ne k k' v d :
  k' ≠ k → PyDict.get k' (PyDict.set k v d) = PyDict.get k' d.
Proof.
  intros Hne. unfold PyDict.get. induction d as [|[k0 v0] d IH]; simpl.
  - by rewrite bool_decide_eq_false_2.
  - case_bool_decide as Hk; simpl.
    + subst. by rewrite !bool_decide_eq_false_2.
    + case_bool_decide; [done | exact IH].
Qed.

Lemma keys_set k v d :
  PyDict.keys (PyDict.set k v d)
  = if bool_decide (k ∈ PyDict.keys d) then PyDict.keys d else PyDict.keys d ++ [k].
Proof.
  unfold PyDict.keys. induction d as [|[k' v'] d IH]; [done|].
  cbn [PyDict.set fst]. rewrite fmap_cons. simpl.
  destruct (decide (k' = k)) as [->|Hk].
  - rewrite (bool_decide_eq_true_2 (k = k)) by done.
    by rewrite (bool_decide_eq_true_2 (k ∈ k :: _)) by left.
  - rewrite (bool_decide_eq_false_2 (k' = k)) by done.
    rewrite fmap_cons, IH. simpl.
    rewrite (bool_decide_ext (k ∈ k' :: (fst <$> d)) (k ∈ fst <$> d)).
    + by destruct (bool_decide (k ∈ fst <$> d)).
    + rewrite elem_of_cons. split; [intros [?|?]; [congruence | done] | by right].
Qed.

Lemma set_fresh k v d : k ∉ PyDict.keys d → PyDict.set k v d = d ++ [(k, v)].
Proof.
  unfold PyDict.keys. induction d as [|[k' v'] d IH]; [done|].
  rewrite fmap_cons, not_elem_of_cons. intros [Hne Hout]. cbn [PyDict.set fst].
  rewrite bool_decide_eq_false_2 by (intros ->; done). simpl. f_equal. by apply IH.
Qed.

Lemma NoDup_keys_set k v d :
  NoDup (PyDict.keys d) → NoDup (PyDict.keys (PyDict.set k v d)).
Proof.
  intros Hnd. rewrite keys_set. case_bool_decide as Hin; [done|].
  apply NoDup_app. split; [done|]. split; [|apply NoDup_singleton].
  intros x Hx ->%list_elem_of_singleton. done.
Qed.

Lemma del_fresh k d : k ∉ PyDict.keys d → PyDict.del k d = d.
Proof.
  unfold PyDict.keys, PyDict.del. induction d as [|[k' v'] d IH]; [done|].
  rewrite fmap_cons, not_elem_of_cons. intros [Hne Hout].
  rewrite filter_cons_True by (simpl; intros ->; done). f_equal. by apply IH.
Qed.

Lemma del_set_fresh k v d :
  k ∉ PyDict.keys d → PyDict.del k (PyDict.set k v d) = d.
Proof.
  intros Hout. rewrite set_fresh by done. unfold PyDict.del.
  rewrite filter_app, filter_cons_False, filter_nil, app_nil_r by (simpl; tauto).
  by apply del_fresh.
Qed.

Lemma get_del_eq k d : PyDict.get k (PyDict.del k d) = None.
Proof.
  apply get_None. unfold PyDict.keys, PyDict.del.
  intros ([k' v'] & -> & Hin)%list_elem_of_fmap.
  apply list_elem_of_filter in Hin as [Hne _]. done.
Qed.

(** The items whose key is not among [R], in their order. *)
Lemma get_without R k d :
  PyDict.get k (filter (fun item => fst item ∉ R) d)
  = if bool_decide (k ∈ R) then None else PyDict.get k d.
Proof.
  unfold PyDict.get. induction d as [|[k' v'] d IH].
  - by destruct (bool_decide (k ∈ R)).
  - rewrite filter_cons. simpl.
    destruct (decide (k' ∉ R)) as [Hout|Hin]; cbn [List.find fst].
    + destruct (decide (k' = k)) as [->|Hk].
      * rewrite !(bool_decide_eq_true_2 (k = k)) by done. simpl.
        by rewrite bool_decide_eq_false_2.
      * rewrite !(bool_decide_eq_false_2 (k' = k)) by done. exact IH.
    + rewrite IH. destruct (decide (k' = k)) as [->|Hk].
      * rewrite (bool_decide_eq_true_2 (k = k)) by done.
        rewrite bool_decide_eq_true_2; [done|]. by apply dec_stable.
      * by rewrite (bool_decide_eq_false_2 (k' = k)) by done.
Qed.

Lemma del_without k d : PyDict.del k d = filter (fun item => fst item ∉ [k]) d.
Proof.
  unfold PyDict.del. apply list_filter_iff. intros [k' v']. simpl.
  by rewrite list_elem_of_singleton.
Qed.

Lemma get_del_ne k k' d :
  k' ≠ k → PyDict.get k' (PyDict.del k d) = PyDict.get k' d.
Proof.
  intros Hne. rewrite del_without, get_without.
  rewrite bool_decide_eq_false_2; [done|]. by rewrite list_elem_of_singleton.
Qed.

Lemma without_nil d : filter (fun item : K * V => fst item ∉ @nil K) d = d.
Proof.
  induction d as [|item d IH]; [done|].
  rewrite filter_cons_True by apply not_elem_of_nil. by rewrite IH.
Qed.

Lemma without_del R k d :
  filter (fun item => fst item ∉ R) (PyDict.del k d)
  = filter (fun item => fst item ∉ k :: R) d.
Proof.
  unfold PyDict.del. rewrite list_filter_filter. apply list_filter_iff.
  intros [k' v']. simpl. rewrite not_elem_of_cons. tauto.
Qed.

Lemma without_absent R k d :
  k ∉ PyDict.keys d →
  filter (fun item => fst item ∉ k :: R) d = filter (fun item => fst item ∉ R) d.
Proof.
  intros Hout. rewrite <- without_del. by rewrite del_fresh.
Qed.

Lemma keys_without R d :
  PyDict.keys (filter (fun item => fst item ∉ R) d)
  = filter (fun k => k ∉ R) (PyDict.keys d).
Proof.
  unfold PyDict.keys. induction d as [|[k' v'] d IH]; [done|].
  rewrite fmap_cons, !filter_cons. simpl.
  destruct (decide (k' ∉ R)); [rewrite fmap_cons|]; by rewrite IH.
Qed.
End Dictionaries.

(** ** Push subscriptions, keys and dispatch *)

Section Dispatch.
Import Push.
Variable generate_private_key : nat -> string * string.
Variable host : string.
Variable webpush : Json.t -> Payload.t -> string -> string -> WebPushResult.
Variable truthy : HTTPResponse.t -> bool.
Implicit Types (w : World.t) (data : Payload.t) (items : list (Key.t * SubData.t)).

Abbreviation generate := (generate_vapid_keys generate_private_key).
Abbreviation key_of := (signing_key generate_private_key).
Abbreviation is_marked := (marked host webpush truthy).

Lemma generate_vapid_keys_present w :
  ∃ private_pem public_key_b64,
    World.vapid_private_pem (generate w) = Some private_pem
    ∧ World.vapid_public_txt (generate w) = Some public_key_b64.
Proof.
  unfold generate_vapid_keys.
  destruct w as [[pem|] [pub|] n subs log]; simpl;
    try destruct (generate_private_key n); simpl; by eauto.
Qed.

Lemma generate_vapid_keys_idem w : generate (generate w) = generate w.
Proof.
  unfold generate_vapid_keys.
  destruct w as [[pem|] [pub|] n subs log]; simpl;
    try destruct (generate_private_key n); simpl; done.
Qed.

Lemma generate_vapid_keys_frame w :
  World.push_subscriptions (generate w) = World.push_subscriptions w
  ∧ World.log (generate w) = World.log w.
Proof.
  unfold generate_vapid_keys.
  destruct w as [[pem|] [pub|] n subs log]; simpl;
    try destruct (generate_private_key n); simpl; done.
Qed.

Lemma generate_record (e : Effect) w :
  generate (World.record e (generate w)) = World.record e (generate w).
Proof.
  destruct (generate_vapid_keys_present w) as (pem & pub & Hpem & Hpub).
  destruct (generate w) as [? ? n subs log]. simpl in *. by subst.
Qed.

(** One turn of the sweep: the key is read, the delivery is tried, the
    endpoint is put on the list when the guard passes, and the table is not
    touched. *)
Lemma push_step_spec data failed_endpoints w endpoint (sub_data : SubData.t) :
  let r := push_step generate_private_key host webpush truthy data
             (failed_endpoints, w) (endpoint, sub_data) in
  fst r = failed_endpoints
          ++ (if is_marked data (key_of w) sub_data then [endpoint] else [])
  ∧ snd r = World.record (webpush_call endpoint data (key_of w))
              (World.record read_private_key (generate w)).
Proof.
  unfold push_step, get_vapid_private_key, signing_key, marked.
  destruct (generate_vapid_keys_present w) as (pem & pub & Hpem & _).
  rewrite Hpem. simpl.
  destruct (webpush _ _ _ _) as [|response|]; simpl; rewrite ?app_nil_r; try done.
  destruct (expired truthy response); simpl; by rewrite ?app_nil_r.
Qed.

Lemma key_of_push_step data failed_endpoints w (item : Key.t * SubData.t) :
  key_of (snd (push_step generate_private_key host webpush truthy data
                 (failed_endpoints, w) item))
  = key_of w.
Proof.
  destruct item as [endpoint sub_data].
  destruct (push_step_spec data failed_endpoints w endpoint sub_data) as [_ ->].
  unfold signing_key. rewrite <- (generate_record read_private_key w) at 1.
  rewrite generate_record. rewrite generate_record. done.
Qed.

(** The endpoints of [items] whose delivery passes the guard, in order. *)
Abbreviation marked_endpoints data key items :=
  (omap (fun item : Key.t * SubData.t =>
           if is_marked data key (snd item) then Some (fst item) else None) items).

(** What one sweep over [items] leaves in the log. *)
Abbreviation sweep_effects data key items :=
  (flat_map (fun item : Key.t * SubData.t =>
               [read_private_key; webpush_call (fst item) data key]) items).

Lemma push_loop data items :
  ∀ failed_endpoints w,
    let r := foldl (push_step generate_private_key host webpush truthy data)
               (failed_endpoints, w) items in
    fst r = failed_endpoints ++ marked_endpoints data (key_of w) items
    ∧ World.log (snd r) = World.log w ++ sweep_effects data (key_of w) items
    ∧ World.push_subscriptions (snd r) = World.push_subscriptions w.
Proof.
  induction items as [|[endpoint sub_data] items IH]; intros failed w r; subst r.
  - simpl. by rewrite !app_nil_r.
  - cbn [foldl].
    pose proof (key_of_push_step data failed w (endpoint, sub_data)) as Hkey.
    destruct (push_step_spec data failed w endpoint sub_data) as [Hf Hw].
    destruct (push_step _ _ _ _ _ _ _) as [failed' w']. simpl in Hf, Hw, Hkey.
    destruct (IH failed' w') as (Hf' & Hl' & Hs'). rewrite Hf', Hl', Hs', Hkey.
    destruct (generate_vapid_keys_frame w) as [Hsubs Hlog].
    subst failed' w'. simpl. rewrite Hsubs, Hlog, <- !app_assoc. simpl.
    split; [|done]. by destruct (is_marked data (key_of w) sub_data).
Qed.

Lemma elem_of_marked_endpoints data key items endpoint :
  endpoint ∈ marked_endpoints data key items
  ↔ ∃ sub_data, (endpoint, sub_data) ∈ items ∧ is_marked data key sub_data = true.
Proof.
  rewrite list_elem_of_omap. split.
  - intros ([e sub_data] & Hin & Hsome). simpl in Hsome.
    destruct (is_marked data key sub_data) eqn:Hm; [|done].
    injection Hsome as ->. by eauto.
  - intros (sub_data & Hin & Hm). exists (endpoint, sub_data).
    split; [done|]. simpl. by rewrite Hm.
Qed.

Lemma marked_endpoints_sublist data key items :
  marked_endpoints data key items `sublist_of` PyDict.keys items.
Proof.
  unfold PyDict.keys. induction items as [|[k sd] items IH]; [done|].
  rewrite fmap_cons. simpl. destruct (is_marked data key sd).
  - by apply sublist_skip.
  - by apply sublist_cons.
Qed.
End Dispatch.

Section Cleanup.
Import Push.
Implicit Types (w : World.t) (failed : list Key.t).

Lemma of_value_value (k : Key.t) : Key.of_value (Key.value k) = Some k.
Proof. by destruct k. Qed.

(** [unsubscribe] called with a key of the table, as the clean-up does. *)
Lemma unsubscribe_key (k : Key.t) w :
  unsubscribe (Key.value k) w
  = if bool_decide (k ∈ PyDict.keys (World.push_subscriptions w)) then
      (if Key.sliceable k then Returns true else Raises TypeError,
       World.with_subscriptions (PyDict.del k (World.push_subscriptions w)) w)
    else (Returns false, w).
Proof.
  unfold unsubscribe. rewrite of_value_value.
  case_bool_decide; [|done]. by destruct (Key.sliceable k).
Qed.

(** The clean-up works through a prefix of its list, the whole of it unless
    an endpoint that is no [str] makes [unsubscribe] raise; the endpoints it
    got to are off the table, whose other items stay in their order, and the
    key files are not touched. *)
Lemma cleanup_spec failed :
  ∀ w,
    ∃ processed,
      processed `prefix_of` failed
      ∧ (fst (cleanup failed w) = Returns tt ∧ processed = failed
         ∨ fst (cleanup failed w) = Raises TypeError
           ∧ Exists (fun k => Key.sliceable k = false) processed)
      ∧ World.log (snd (cleanup failed w))
        = World.log w ++ (unsubscribe_call <$> processed)
      ∧ World.push_subscriptions (snd (cleanup failed w))
        = filter (fun item => fst item ∉ processed) (World.push_subscriptions w)
      ∧ KeyFiles.key_state (snd (cleanup failed w)) = KeyFiles.key_state w.
Proof.
  induction failed as [|k failed IH]; intros w.
  - exists []. cbn [cleanup fst snd]. rewrite fmap_nil, app_nil_r, without_nil.
    split; [done|]. split; [by left | done].
  - cbn [cleanup]. rewrite unsubscribe_key. simpl.
    case_bool_decide as Hin.
    + destruct (Key.sliceable k) eqn:Hslice.
      * match goal with
        | |- context [cleanup failed ?w1] =>
            destruct (IH w1) as (processed & Hpre & Hres & Hlog & Hsubs & Hkeys)
        end.
        exists (k :: processed). split; [by apply prefix_cons|].
        split.
        { destruct Hres as [[-> ->]|[-> Hex]]; [by left | right].
          split; [done | by apply Exists_cons_tl]. }
        rewrite Hlog, Hsubs, Hkeys. simpl.
        rewrite <- app_assoc, without_del. done.
      * exists [k]. simpl. split; [by apply prefix_cons, prefix_nil|].
        split; [right; split; [done | by apply Exists_cons_hd]|].
        rewrite del_without. done.
    + match goal with
      | |- context [cleanup failed ?w1] =>
          destruct (IH w1) as (processed & Hpre & Hres & Hlog & Hsubs & Hkeys)
      end.
      exists (k :: processed). split; [by apply prefix_cons|].
      split.
      { destruct Hres as [[-> ->]|[-> Hex]]; [by left | right].
        split; [done | by apply Exists_cons_tl]. }
      rewrite Hlog, Hsubs, Hkeys. simpl.
      rewrite <- app_assoc, without_absent by done. done.
Qed.

Lemma cleanup_returns failed w :
  Forall (fun k => Key.sliceable k = true) failed →
  fst (cleanup failed w) = Returns tt.
Proof.
  intros Hall. destruct (cleanup_spec failed w) as (processed & Hpre & Hres & _).
  destruct Hres as [[-> _]|[_ Hex]]; [done|]. exfalso.
  apply Exists_exists in Hex as (k & Hk & Hslice).
  rewrite Forall_forall in Hall. destruct Hpre as [rest ->].
  rewrite (Hall k) in Hslice; [done|]. apply elem_of_app. by left.
Qed.
End Cleanup.

Section Sweep.
Import Push.
Variable generate_private_key : nat -> string * string.
Variable host : string.
Variable webpush : Json.t -> Payload.t -> string -> string -> WebPushResult.
Variable truthy : HTTPResponse.t -> bool.

(** The whole of [send_push_notification]: the log gains the sweep, one
    key read and one delivery per subscriber in the order of the table, and
    after the whole sweep the removals; these go through the endpoints whose
    delivery passed the guard, all of them unless [unsubscribe] raises, and
    the table loses exactly the endpoints they got to. *)
Lemma send_push_notification_spec title body url tag event_id (w : World.t) :
  let data := Payload.mk title body url tag event_id in
  let key := signing_key generate_private_key w in
  let items := World.push_subscriptions w in
  let marked_endpoints :=
    omap (fun item : Key.t * SubData.t =>
            if marked host webpush truthy data key (snd item) then Some (fst item)
            else None) items in
  let r := send_push_notification generate_private_key host webpush truthy
             title body url tag event_id w in
  ∃ processed,
    processed `prefix_of` marked_endpoints
    ∧ (fst r = Returns tt ∧ processed = marked_endpoints
       ∨ fst r = Raises TypeError
         ∧ Exists (fun k => Key.sliceable k = false) processed)
    ∧ World.log (snd r)
      = World.log w
        ++ flat_map (fun item : Key.t * SubData.t =>
                       [read_private_key; webpush_call (fst item) data key]) items
        ++ (unsubscribe_call <$> processed)
    ∧ World.push_subscriptions (snd r)
      = filter (fun item => fst item ∉ processed) items.
Proof.
  intros data key items marked_endpoints r. subst r marked_endpoints items.
  unfold send_push_notification. fold data.
  destruct (World.push_subscriptions w) as [|item items] eqn:Hitems.
  - exists []. cbn [fst snd omap flat_map]. rewrite fmap_nil, !app_nil_r, Hitems.
    split; [done|]. split; [by left | done].
  - destruct (push_loop generate_private_key host webpush truthy data (item :: items) [] w)
      as (Hf & Hl & Hs).
    fold key in Hf, Hl.
    destruct (foldl (push_step _ _ _ _ _) _ _) as [failed w']. cbn [fst snd app] in Hf, Hl, Hs.
    destruct (cleanup_spec failed w') as (processed & Hpre & Hres & Hlog & Hsubs & _).
    exists processed. rewrite Hlog, Hsubs, Hl, Hs, Hitems, <- app_assoc. subst failed.
    done.
Qed.
End Sweep.

Section Attempts.
Import Push.

Lemma attempts_app (log log' : list Effect) :
  attempts (log ++ log') = attempts log ++ attempts log'.
Proof. apply omap_app. Qed.

Lemma attempts_sweep data key (items : list (Key.t * SubData.t)) :
  attempts (flat_map (fun item : Key.t * SubData.t =>
                        [read_private_key; webpush_call (fst item) data key]) items)
  = (fun item => (fst item, data)) <$> items.
Proof. induction items as [|item items IH]; [done|]. simpl. f_equal. exact IH. Qed.

Lemma attempts_unsubscribe (endpoints : list Key.t) :
  attempts (unsubscribe_call <$> endpoints) = [].
Proof. by induction endpoints. Qed.

(** With the truth value [requests] gives its responses, the guard of the
    clean-up never passes: a response with status 404 or 410 is not [ok],
    so [e.response and ...] stops at [e.response]. *)
Lemma expired_never (response : option HTTPResponse.t) :
  expired HTTPResponse.ok response = false.
Proof.
  destruct response as [[status]|]; [|done]. unfold expired, HTTPResponse.ok. simpl.
  case_bool_decide as Hin; [|by rewrite andb_false_r].
  apply elem_of_cons in Hin as [->|Hin]; [done|].
  apply elem_of_cons in Hin as [->|Hin]; [done|]. by apply elem_of_nil in Hin.
Qed.

Lemma marked_never (host : string)
    (webpush : Json.t -> Payload.t -> string -> string -> WebPushResult)
    (data : Payload.t) (vapid_private_key : string) (sub_data : SubData.t) :
  marked host webpush HTTPResponse.ok data vapid_private_key sub_data = false.
Proof. unfold marked. destruct (webpush _ _ _ _); try done. apply expired_never. Qed.

(** So no sweep ever takes an endpoint off the table. *)
Lemma send_push_notification_never_unsubscribes
    (generate_private_key : nat -> string * string) (host : string)
    (webpush : Json.t -> Payload.t -> string -> string -> WebPushResult)
    (title body url tag : string) (event_id : option Z) (w : World.t) :
  let r := send_push_notification generate_private_key host webpush HTTPResponse.ok
             title body url tag event_id w in
  fst r = Returns tt
  ∧ World.push_subscriptions (snd r) = World.push_subscriptions w.
Proof.
  intros r.
  destruct (send_push_notification_spec generate_private_key host webpush
              HTTPResponse.ok title body url tag event_id w)
    as (processed & Hpre & Hres & _ & Hsubs).
  fold r in Hres, Hsubs.
  assert (processed = []) as ->.
  { apply prefix_nil_inv. revert Hpre.
    match goal with |- _ `prefix_of` ?l → _ => assert (l = []) as ->; [|done] end.
    match goal with |- ?l = [] => destruct l as [|k ks] eqn:Hl; [done|] end.
    assert (k ∈ k :: ks) as Hin by left. rewrite <- Hl in Hin.
    apply elem_of_marked_endpoints in Hin as (sd & _ & Hm).
    by rewrite marked_never in Hm. }
  rewrite Hsubs, without_nil. split; [|done].
  destruct Hres as [[-> _]|[_ Hex]]; [done|]. by apply Exists_nil in Hex.
Qed.

(** The deliveries of an alert: one per subscriber, in the order of the
    table, all with the payload made from the template. *)
Lemma send_alert_notification_attempts
    (generate_private_key : nat -> string * string) (host : string)
    (webpush : Json.t -> Payload.t -> string -> string -> WebPushResult)
    (truthy : HTTPResponse.t -> bool)
    (event_type details title default_body : string) (event_id : option Z)
    (w : World.t) :
  template event_type = Some (title, default_body) →
  attempts (World.log (snd (send_alert_notification generate_private_key host webpush
                              truthy event_type details event_id w)))
  = attempts (World.log w)
    ++ ((fun item : Key.t * SubData.t =>
           (fst item,
            Payload.mk title
              (if bool_decide (details = "") then default_body else details)
              (match event_id with
               | Some n => if bool_decide (n = 0%Z) then "/events"
                           else "/events?highlight=" +:+ str_of_int n
               | None => "/events"
               end)
              ("alert-" +:+ lower event_type)
              event_id))
          <$> World.push_subscriptions w).
Proof.
  intros Htemplate. unfold send_alert_notification. rewrite Htemplate.
  destruct (send_push_notification_spec generate_private_key host webpush truthy title
              (if bool_decide (details = "") then default_body else details)
              (alert_url event_id) ("alert-" +:+ lower event_type)
              event_id w) as (processed & _ & _ & -> & _).
  rewrite !attempts_app, attempts_sweep, attempts_unsubscribe, app_nil_r.
  do 3 f_equal. unfold alert_url, int_truthy.
  destruct event_id as [n|]; [|done]. by destruct (bool_decide (n = 0%Z)).
Qed.
End Attempts.

(** What [subscribe] turns away: a body that is no dictionary, and an
    endpoint that is a list or a dictionary; the state is then as before.
    Any other endpoint, [None] and numbers included, becomes a key. *)
Lemma subscribe_refused (subscription_info : Json.t) (user_id : string)
    (w : Push.World.t) :
  (fst (Push.subscribe subscription_info user_id w) = true
   ↔ ∃ entries key,
       subscription_info = Json.object entries
       ∧ Key.of_value (default (Json.str "") (Json.get "endpoint" entries)) = Some key)
  ∧ (fst (Push.subscribe subscription_info user_id w) = false →
     snd (Push.subscribe subscription_info user_id w) = w).
Proof.
  unfold Push.subscribe. destruct subscription_info as [|b|n|s|items|entries]; simpl;
    try (split; [split; [done | by intros (? & ? & ? & _)] | done]).
  destruct (Key.of_value _) as [key|] eqn:Hkey; simpl.
  - split; [|done]. split; [intros _; by eexists _, _ | done].
  - split; [|done]. split; [done|]. intros (entries' & key & [= <-] & Hkey').
    congruence.
Qed.

(** C6, as the code has it.  [subscribe] answers [True] for every
    dictionary whose endpoint is a string or is missing, whatever else the
    dictionary holds: nothing of it is checked, and the endpoint need not be
    non-empty.  The entry is stored under the endpoint, under the empty
    string when the endpoint is missing; whatever was stored under that key
    before is replaced and keeps its place in the table, a new key goes
    last; every other entry, the key files and the log are left alone. *)
Theorem subscribe_stores_unchecked
    (entries : list (string * Json.t)) (endpoint user_id : string) (w : Push.World.t)
    (Hendpoint : Json.get "endpoint" entries = None ∧ endpoint = ""
                 ∨ Json.get "endpoint" entries = Some (Json.str endpoint)) :
  let subscription_info := Json.object entries in
  let after := snd (Push.subscribe subscription_info user_id w) in
  fst (Push.subscribe subscription_info user_id w) = true
  ∧ PyDict.get (Key.str endpoint) (Push.World.push_subscriptions after)
    = Some (Push.SubData.mk subscription_info user_id)
  ∧ (∀ other, other ≠ Key.str endpoint →
       PyDict.get other (Push.World.push_subscriptions after)
       = PyDict.get other (Push.World.push_subscriptions w))
  ∧ PyDict.keys (Push.World.push_subscriptions after)
    = (if bool_decide (Key.str endpoint ∈ PyDict.keys (Push.World.push_subscriptions w))
       then PyDict.keys (Push.World.push_subscriptions w)
       else PyDict.keys (Push.World.push_subscriptions w) ++ [Key.str endpoint])
  ∧ Push.World.vapid_private_pem after = Push.World.vapid_private_pem w
  ∧ Push.World.vapid_public_txt after = Push.World.vapid_public_txt w
  ∧ Push.World.generated after = Push.World.generated w
  ∧ Push.World.log after = Push.World.log w.
Proof.
  intros subscription_info after. unfold after, subscription_info, Push.subscribe.
  assert (default (Json.str "") (Json.get "endpoint" entries) = Json.str endpoint)
    as ->.
  { by destruct Hendpoint as [[-> ->]| ->]. }
  simpl. split; [done|]. split; [apply get_set_eq|].
  split; [intros other Hne; by apply get_set_ne|].
  split; [apply keys_set | done].
Qed.

Lemma subscribe_stores_unchecked_witness :
  let renewal :=
    Json.object [("endpoint", Json.str Sample.live); ("keys", Json.str "not checked")] in
  let after := snd (Push.subscribe renewal "anonymous" Sample.one_subscriber) in
  fst (Push.subscribe renewal "anonymous" Sample.one_subscriber) = true
  ∧ PyDict.get (Key.str Sample.live) (Push.World.push_subscriptions after)
    = Some (Push.SubData.mk renewal "anonymous")
  ∧ PyDict.keys (Push.World.push_subscriptions after) = [Key.str Sample.live].
Proof.
  destruct (subscribe_stores_unchecked
              [("endpoint", Json.str Sample.live); ("keys", Json.str "not checked")]
              Sample.live "anonymous" Sample.one_subscriber (or_intror eq_refl))
    as (Hok & Hget & _ & Hkeys & _).
  split; [exact Hok|]. split; [exact Hget | exact Hkeys].
Defined.

(** C6, counterexample.  A subscription without endpoint, and one whose
    endpoint is the empty string, are both accepted and stored under the
    empty key: no non-empty endpoint is required. *)
Lemma subscribe_accepts_empty_endpoint :
  Push.subscribe (Json.object []) "anonymous" Sample.fresh
  = (true,
     Push.World.mk None None 0
       [(Key.str "", Push.SubData.mk (Json.object []) "anonymous")] [])
  ∧ Push.subscribe (Json.object [("endpoint", Json.str "")]) "anonymous" Sample.fresh
    = (true,
       Push.World.mk None None 0
         [(Key.str "",
           Push.SubData.mk (Json.object [("endpoint", Json.str "")]) "anonymous")] []).
Proof. split; reflexivity. Qed.


(** C9. With no subscriber in the table, [send_push_notification], and
    [send_alert_notification] through it, returns the state it was given:
    the two key files are neither read nor written, no key pair is generated,
    no [webpush] call is made, the table and the log are as before. *)
Theorem send_push_notification_no_subscribers
    (generate_private_key : nat -> string * string) (host : string)
    (webpush : Json.t -> Push.Payload.t -> string -> string -> Push.WebPushResult)
    (truthy : Push.HTTPResponse.t -> bool)
    (title body url tag event_type details : string) (event_id : option Z)
    (w : Push.World.t)
    (Hempty : Push.World.push_subscriptions w = []) :
  Push.send_push_notification generate_private_key host webpush truthy
    title body url tag event_id w = (Returns tt, w)
  ∧ Push.send_alert_notification generate_private_key host webpush truthy
      event_type details event_id w = (Returns tt, w).
Proof.
  assert (∀ title body url tag,
            Push.send_push_notification generate_private_key host webpush truthy
              title body url tag event_id w = (Returns tt, w)) as Hsend.
  { intros. unfold Push.send_push_notification. by rewrite Hempty. }
  split; [apply Hsend|].
  unfold Push.send_alert_notification.
  destruct (Push.template event_type) as [[? ?]|]; [apply Hsend | done].
Qed.

Lemma send_push_notification_no_subscribers_witness :
  Push.send_push_notification Sample.key_pairs "0.0.0.0" Sample.service
    Push.HTTPResponse.ok "Loitering Alert" "Unusual activity detected" "/events"
    "alert-loitering_detected" (Some 4%Z) Sample.fresh = (Returns tt, Sample.fresh)
  ∧ Push.send_alert_notification Sample.key_pairs "0.0.0.0" Sample.service
      Push.HTTPResponse.ok "LOITERING_DETECTED" "" (Some 4%Z) Sample.fresh
    = (Returns tt, Sample.fresh).
Proof.
  exact (send_push_notification_no_subscribers Sample.key_pairs "0.0.0.0" Sample.service
           Push.HTTPResponse.ok "Loitering Alert" "Unusual activity detected" "/events"
           "alert-loitering_detected" "LOITERING_DETECTED" "" (Some 4%Z)
           Sample.fresh eq_refl).
Defined.

(** C10. [get_vapid_public_key] always returns a key, and a second call
    right after the first returns the same key and leaves the state of the
    first call untouched: the files hold what they held and no further pair
    has been generated.  [generate_vapid_keys] changes nothing when both
    files exist, and reading the private key after the public one generates
    nothing either. *)
Theorem get_vapid_public_key_stable
    (generate_private_key : nat -> string * string) (w : Push.World.t) :
  let once := Push.get_vapid_public_key generate_private_key w in
  let twice := Push.get_vapid_public_key generate_private_key (snd once) in
  is_Some (fst once)
  ∧ fst twice = fst once
  ∧ snd twice = snd once
  ∧ Push.World.generated (snd (Push.get_vapid_private_key generate_private_key (snd once)))
    = Push.World.generated (snd once)
  ∧ ∀ private_pem public_key_b64 generated push_subscriptions log,
      Push.generate_vapid_keys generate_private_key
        (Push.World.mk (Some private_pem) (Some public_key_b64) generated
           push_subscriptions log)
      = Push.World.mk (Some private_pem) (Some public_key_b64) generated
          push_subscriptions log.
Proof.
  intros once twice. unfold twice, once, Push.get_vapid_public_key,
    Push.get_vapid_private_key. simpl.
  rewrite !generate_vapid_keys_idem.
  destruct (generate_vapid_keys_present generate_private_key w) as (pem & pub & _ & Hpub).
  rewrite Hpub. simpl. split; [by eexists|]. done.
Qed.

(** C4. Three endpoints are subscribed; the push service answers 410 Gone
    to one, 503 to another and accepts the third.  The sweep tries all
    three, in the order they subscribed, so no failure aborts it, and it
    queues no removal: the response that [WebPushException] carries for a 410
    is falsy, the guard [e.response and e.response.status_code in (404, 410)]
    does not pass, and the endpoint that is gone is still subscribed when
    the sweep is over. *)
Theorem send_push_notification_keeps_gone_endpoint :
  let data := Push.Payload.mk "Loitering Alert" "Unusual activity detected"
                "/events" "alert-loitering_detected" None in
  let result := Push.send_push_notification Sample.key_pairs "0.0.0.0" Sample.service
                  Push.HTTPResponse.ok
                  "Loitering Alert" "Unusual activity detected" "/events"
                  "alert-loitering_detected" None Sample.subscribed in
  let after := snd result in
  Sample.service (Sample.subscription Sample.gone) data "PRIVATE-0" "mailto:admin@0.0.0.0"
  = Push.RaisesWebPushException (Some (Push.HTTPResponse.mk 410))
  ∧ fst result = Returns tt
  ∧ Push.World.log after
    = [Push.read_private_key; Push.webpush_call (Key.str Sample.gone) data "PRIVATE-0";
       Push.read_private_key; Push.webpush_call (Key.str Sample.busy) data "PRIVATE-0";
       Push.read_private_key; Push.webpush_call (Key.str Sample.live) data "PRIVATE-0"]
  ∧ PyDict.get (Key.str Sample.gone) (Push.World.push_subscriptions after)
    = Some (Push.SubData.mk (Sample.subscription Sample.gone) "anonymous")
  ∧ Push.World.push_subscriptions after = Push.World.push_subscriptions Sample.subscribed.
Proof. vm_compute. repeat split; reflexivity. Qed.

(** * Further properties of the routers *)

(** ** [format_duration] *)

(** X1. [format_duration] by the size of its argument.  Below one minute,
    zero and negative values included, it shows the whole seconds,
    [ms // 1000]; from one minute to one hour it shows minutes and seconds,
    the seconds below 60 and both adding up to [ms // 1000]; from one hour on
    it shows hours and minutes, the minutes below 60 and both adding up to
    the whole minutes [ms // 60000], the seconds being dropped. *)
Theorem format_duration_ranges (ms : Z) :
  ((ms < 60000)%Z →
     Dashboard.format_duration ms = str_of_int (ms / 1000) +:+ "s")
  ∧ ((60000 ≤ ms < 3600000)%Z →
       ∃ m s, Dashboard.format_duration ms
              = str_of_int m +:+ "m " +:+ str_of_int s +:+ "s"
              ∧ (1 ≤ m < 60)%Z ∧ (0 ≤ s < 60)%Z ∧ (60 * m + s = ms / 1000)%Z)
  ∧ ((3600000 ≤ ms)%Z →
       ∃ h m, Dashboard.format_duration ms
              = str_of_int h +:+ "h " +:+ str_of_int m +:+ "m"
              ∧ (1 ≤ h)%Z ∧ (0 ≤ m < 60)%Z ∧ (60 * h + m = ms / 60000)%Z).
Proof.
  unfold Dashboard.format_duration.
  assert (ms / 1000 / 60 = ms / 60000)%Z as Hmin by (rewrite Z.div_div by lia; done).
  assert (ms / 1000 / 60 / 60 = ms / 3600000)%Z as Hhour
    by (rewrite !Z.div_div by lia; done).
  pose proof (Z.mod_pos_bound (ms / 1000) 60 ltac:(lia)) as Hs.
  pose proof (Z.mod_pos_bound (ms / 1000 / 60) 60 ltac:(lia)) as Hm.
  pose proof (Z.div_mod (ms / 1000) 60 ltac:(lia)) as Hds.
  pose proof (Z.div_mod (ms / 1000 / 60) 60 ltac:(lia)) as Hdm.
  split; [|split].
  - intros Hlt. case_bool_decide as H0; [by subst|].
    rewrite bool_decide_eq_true_2; [done|].
    apply Z.div_lt_upper_bound; lia.
  - intros [Hlo Hhi]. rewrite bool_decide_eq_false_2 by lia.
    assert (60 ≤ ms / 1000)%Z by (apply Z.div_le_lower_bound; lia).
    assert (ms / 1000 / 60 < 60)%Z
      by (rewrite Hmin; apply Z.div_lt_upper_bound; lia).
    assert (1 ≤ ms / 1000 / 60)%Z by (apply Z.div_le_lower_bound; lia).
    rewrite bool_decide_eq_false_2 by lia. rewrite bool_decide_eq_true_2 by lia.
    eexists _, _. split; [done|]. lia.
  - intros Hlo. rewrite bool_decide_eq_false_2 by lia.
    assert (60 ≤ ms / 1000)%Z by (apply Z.div_le_lower_bound; lia).
    assert (60 ≤ ms / 1000 / 60)%Z
      by (rewrite Hmin; apply Z.div_le_lower_bound; lia).
    assert (1 ≤ ms / 1000 / 60 / 60)%Z by (apply Z.div_le_lower_bound; lia).
    rewrite !bool_decide_eq_false_2 by lia.
    eexists _, _. split; [done|]. rewrite <- Hmin. lia.
Qed.

(** ** [get_event_stats], [get_events], [get_today_events] *)

Section Reading.
Import EventsRead.
Implicit Types (rows : list Event.t) (p q : Event.t -> bool).

Lemma count_split p q rows :
  count p rows = (count (fun e => p e && q e) rows
                  + count (fun e => p e && negb (q e)) rows)%Z.
Proof.
  unfold count. induction rows as [|e rows IH]; [done|]. simpl.
  destruct (p e), (q e); simpl; lia.
Qed.

Lemma count_nonneg p rows : (0 ≤ count p rows)%Z.
Proof. unfold count. lia. Qed.

Lemma count_ext p q rows :
  (∀ e, p e = q e) → count p rows = count q rows.
Proof.
  intros Hpq. unfold count. induction rows as [|e rows IH]; [done|]. simpl.
  rewrite Hpq. destruct (q e); simpl; lia.
Qed.
End Reading.

(** X2. In the statistics of a day the people counter and the vehicle
    counter count disjoint sets of today's events: together with today's
    events of every other type (UNKNOWN_FACE_DETECTED, LOITERING_DETECTED,
    ...) they add up to [total_today], so neither exceeds it. *)
Theorem get_event_stats_partition (start_timestamp : Z) (db : Session.t) :
  let stats := EventsRead.get_event_stats start_timestamp db in
  let others :=
    EventsRead.count
      (fun e => EventsRead.since start_timestamp e
                && negb (bool_decide (Event.event_type e ∈ EventsRead.people_types))
                && negb (bool_decide (Event.event_type e ∈ EventsRead.vehicle_types)))
      (Session.events db) in
  (EventsRead.Stats.total_today stats
   = EventsRead.Stats.people_events stats + EventsRead.Stats.vehicle_events stats
     + others)%Z
  ∧ (0 ≤ EventsRead.Stats.people_events stats)%Z
  ∧ (0 ≤ EventsRead.Stats.vehicle_events stats)%Z
  ∧ (0 ≤ others)%Z.
Proof.
  intros stats others. unfold stats, others, EventsRead.get_event_stats. simpl.
  split; [|auto using count_nonneg].
  rewrite (count_split (EventsRead.since start_timestamp)
             (fun e => bool_decide (Event.event_type e ∈ EventsRead.people_types))).
  rewrite (count_split
             (fun e => EventsRead.since start_timestamp e
                       && negb (bool_decide (Event.event_type e ∈ EventsRead.people_types)))
             (fun e => bool_decide (Event.event_type e ∈ EventsRead.vehicle_types))).
  rewrite Z.add_assoc. f_equal. f_equal.
  apply count_ext. intros e.
  destruct (EventsRead.since start_timestamp e); [|done]. simpl.
  case_bool_decide as Hp; [|done]. simpl.
  rewrite bool_decide_eq_false_2; [done|].
  unfold EventsRead.people_types, EventsRead.vehicle_types in *.
  rewrite !elem_of_cons, elem_of_nil in Hp. rewrite !elem_of_cons, elem_of_nil.
  destruct Hp as [Hp|[Hp|[Hp|[Hp|[]]]]]; rewrite Hp; intros [?|[?|[]]]; discriminate.
Qed.

(** X3. Pages of [get_events] fit together: with the same filters, the page
    of [a] events from offset [o] followed by the page of [b] events from
    offset [o + a] is the page of [a + b] events from offset [o]; nothing is
    skipped and nothing comes twice, however the database orders ties. *)
Theorem get_events_pages
    (order_by_timestamp_desc : list Event.t -> list Event.t)
    (a b o : Z) (event_type : option string) (start_time end_time : option Z)
    (db : Session.t)
    (Ha : (1 ≤ a)%Z) (Hb : (1 ≤ b)%Z) (Hab : (a + b ≤ 1000)%Z) (Ho : (0 ≤ o)%Z) :
  ∃ first_page second_page,
    EventsRead.get_events order_by_timestamp_desc a o event_type start_time end_time db
    = Some first_page
    ∧ EventsRead.get_events order_by_timestamp_desc b (o + a) event_type
        start_time end_time db
      = Some second_page
    ∧ EventsRead.get_events order_by_timestamp_desc (a + b) o event_type
        start_time end_time db
      = Some (first_page ++ second_page).
Proof.
  unfold EventsRead.get_events.
  rewrite !bool_decide_eq_true_2 by lia.
  eexists _, _. split; [done|]. split; [done|]. f_equal.
  rewrite !Z2Nat.inj_add by lia.
  rewrite <- drop_drop. symmetry. apply take_take_drop.
Qed.

Lemma get_events_pages_witness :
  ∃ first_page second_page,
    EventsRead.get_events Fixture.newest_first 2 1 None None None Fixture.day
    = Some first_page
    ∧ EventsRead.get_events Fixture.newest_first 2 3 None None None Fixture.day
      = Some second_page
    ∧ EventsRead.get_events Fixture.newest_first 4 1 None None None Fixture.day
      = Some (first_page ++ second_page).
Proof.
  exact (get_events_pages Fixture.newest_first 2 2 1 None None None Fixture.day
           ltac:(lia) ltac:(lia) ltac:(lia) ltac:(lia)).
Defined.

Lemma newest_first_Permutation (rows : list Event.t) :
  Fixture.newest_first rows ≡ₚ rows.
Proof. apply merge_sort_Permutation. Qed.

Lemma newest_first_members (rows : list Event.t) (e : Event.t) :
  e ∈ Fixture.newest_first rows → e ∈ rows.
Proof. by rewrite newest_first_Permutation. Qed.

(** X4. A page of [get_events] holds at most [limit] events, all of them
    rows of the events table that pass every filter in force: the requested
    type when a non-empty one is given, the lower bound when a non-zero
    [start_time] is given, the upper bound when a non-zero [end_time] is
    given.  The ordering of the database is only asked not to invent rows. *)
Theorem get_events_page_sound
    (order_by_timestamp_desc : list Event.t -> list Event.t)
    (limit offset : Z) (event_type : option string) (start_time end_time : option Z)
    (db : Session.t) (page : list Event.t)
    (Horder : ∀ rows e, e ∈ order_by_timestamp_desc rows → e ∈ rows)
    (Hpage : EventsRead.get_events order_by_timestamp_desc limit offset
               event_type start_time end_time db = Some page) :
  (Z.of_nat (length page) ≤ limit)%Z
  ∧ ∀ e, e ∈ page →
      e ∈ Session.events db
      ∧ (∀ t, event_type = Some t → t ≠ "" → Event.event_type e = t)
      ∧ (∀ t, start_time = Some t → t ≠ 0%Z → (t ≤ Event.timestamp e)%Z)
      ∧ (∀ t, end_time = Some t → t ≠ 0%Z → (Event.timestamp e ≤ t)%Z).
Proof.
  unfold EventsRead.get_events in Hpage.
  case_bool_decide as Hvalid; [|done]. injection Hpage as <-.
  split; [rewrite length_take; lia|].
  intros e He.
  apply subseteq_take, subseteq_drop, Horder in He.
  apply list_elem_of_In, filter_In in He as [Hin Hpass].
  apply list_elem_of_In in Hin. split; [done|].
  unfold EventsRead.passes in Hpass.
  apply andb_prop in Hpass as [Hpass Hend]. apply andb_prop in Hpass as [Htype Hstart].
  split; [|split].
  - intros t -> Ht. simpl in Htype. rewrite bool_decide_eq_false_2 in Htype by done.
    simpl in Htype. apply bool_decide_eq_true in Htype. congruence.
  - intros t -> Ht. simpl in Hstart. rewrite bool_decide_eq_false_2 in Hstart by done.
    simpl in Hstart. by apply bool_decide_eq_true in Hstart.
  - intros t -> Ht. simpl in Hend. rewrite bool_decide_eq_false_2 in Hend by done.
    simpl in Hend. by apply bool_decide_eq_true in Hend.
Qed.

Lemma get_events_page_sound_witness :
  (Z.of_nat (length [Fixture.event 5 "VEHICLE_ENTERED" 500]) ≤ 1)%Z
  ∧ ∀ e, e ∈ [Fixture.event 5 "VEHICLE_ENTERED" 500] →
      e ∈ Session.events Fixture.day
      ∧ (∀ t, Some "VEHICLE_ENTERED" = Some t → t ≠ "" → Event.event_type e = t)
      ∧ (∀ t, Some 150%Z = Some t → t ≠ 0%Z → (t ≤ Event.timestamp e)%Z)
      ∧ (∀ t, Some 600%Z = Some t → t ≠ 0%Z → (Event.timestamp e ≤ t)%Z).
Proof.
  exact (get_events_page_sound Fixture.newest_first 1 0 (Some "VEHICLE_ENTERED")
           (Some 150%Z) (Some 600%Z) Fixture.day
           [Fixture.event 5 "VEHICLE_ENTERED" 500]
           newest_first_members eq_refl).
Defined.

(** X5. The listing of today's events and the statistics agree: the number
    of events [get_today_events] returns is [total_today] of
    [get_event_stats] for the same midnight, and every listed event is of
    today.  The ordering of the database is asked to permute its rows. *)
Theorem get_today_events_matches_stats
    (order_by_timestamp_desc : list Event.t -> list Event.t)
    (start_timestamp : Z) (db : Session.t)
    (Horder : ∀ rows, order_by_timestamp_desc rows ≡ₚ rows) :
  Z.of_nat (length (EventsRead.get_today_events order_by_timestamp_desc
                      start_timestamp db))
  = EventsRead.Stats.total_today (EventsRead.get_event_stats start_timestamp db)
  ∧ ∀ e, e ∈ EventsRead.get_today_events order_by_timestamp_desc start_timestamp db →
         e ∈ Session.events db ∧ (start_timestamp ≤ Event.timestamp e)%Z.
Proof.
  unfold EventsRead.get_today_events, EventsRead.get_event_stats, EventsRead.count.
  simpl. split; [by rewrite Horder|].
  intros e. rewrite Horder. intros He.
  apply list_elem_of_In, filter_In in He as [Hin Hpass].
  apply list_elem_of_In in Hin. split; [done|].
  by apply bool_decide_eq_true in Hpass.
Qed.

Lemma get_today_events_matches_stats_witness :
  Z.of_nat (length (EventsRead.get_today_events Fixture.newest_first 250 Fixture.day))
  = EventsRead.Stats.total_today (EventsRead.get_event_stats 250 Fixture.day)
  ∧ ∀ e, e ∈ EventsRead.get_today_events Fixture.newest_first 250 Fixture.day →
         e ∈ Session.events Fixture.day ∧ (250 ≤ Event.timestamp e)%Z.
Proof.
  exact (get_today_events_matches_stats Fixture.newest_first 250 Fixture.day
           newest_first_Permutation).
Defined.

(** ** Authentication and the device switches *)

Section Rows.
Context {A : Type}.
Implicit Types (p q : A -> bool) (f g : A -> A) (rows : list A).

Lemma update_first_twice p f g rows :
  (∀ r, p (f r) = p r) → (∀ r, g (f r) = g r) →
  update_first p g (update_first p f rows) = update_first p g rows.
Proof.
  intros Hp Hg. induction rows as [|r rows IH]; [done|]. cbn [update_first].
  destruct (p r) eqn:Hr; cbn [update_first].
  - by rewrite Hp, Hr, Hg.
  - by rewrite Hr, IH.
Qed.

Lemma first_update_first_other {B} (h : A -> B) p q f rows :
  (∀ r, q (f r) = q r) → (∀ r, h (f r) = h r) →
  h <$> first q (update_first p f rows) = h <$> first q rows.
Proof.
  intros Hq Hh. unfold first. induction rows as [|r rows IH]; [done|].
  cbn [update_first]. destruct (p r); simpl.
  - rewrite Hq. destruct (q r); simpl; [by rewrite Hh | done].
  - destruct (q r); [done | exact IH].
Qed.

Lemma update_first_None p f rows :
  first p rows = None → update_first p f rows = rows.
Proof.
  unfold first. induction rows as [|r rows IH]; [done|]. simpl.
  destruct (p r); [done|]. intros H. by rewrite IH.
Qed.

Lemma update_first_undo p f g rows r :
  (∀ r, p (f r) = p r) → first p rows = Some r → g (f r) = r →
  update_first p g (update_first p f rows) = rows.
Proof.
  intros Hp. unfold first. induction rows as [|r' rows IH]; [done|]. simpl.
  destruct (p r') eqn:Hr; simpl.
  - intros [= <-] Hg. by rewrite Hp, Hr, Hg.
  - intros Hf Hg. by rewrite Hr, IH.
Qed.
End Rows.

(** X6. Authenticating twice with one credential leaves the store as one
    authentication at the later time does: the second [last_seen] replaces
    the first, and nothing else changes. *)
Theorem verify_api_key_last_write_wins
    (x_api_key : string) (earlier later : Z) (db : Session.t) :
  snd (Events.verify_api_key x_api_key later
         (snd (Events.verify_api_key x_api_key earlier db)))
  = snd (Events.verify_api_key x_api_key later db).
Proof.
  unfold Events.verify_api_key.
  destruct (first (Events.key_matches x_api_key) (Session.devices db))
    as [d|] eqn:Hfirst; simpl.
  - rewrite (first_update_first (Events.key_matches x_api_key)
               (Device.set_last_seen earlier) (Session.devices db) d) by done.
    unfold Session.with_devices. simpl. f_equal. by apply update_first_twice.
  - by rewrite Hfirst.
Qed.

(** X7. Authenticating one credential does not change what authenticating
    any credential answers afterwards: the same device or the same 401. *)
Theorem verify_api_key_no_interference
    (x_api_key other_key : string) (now later : Z) (db : Session.t) :
  fst (Events.verify_api_key other_key later
         (snd (Events.verify_api_key x_api_key now db)))
  = fst (Events.verify_api_key other_key later db).
Proof.
  assert (∀ db', fst (Events.verify_api_key other_key later db')
                 = match Device.set_last_seen later
                         <$> first (Events.key_matches other_key) (Session.devices db') with
                   | Some d => Return d
                   | None => HTTPException 401 "Invalid or inactive API key"
                   end) as Hfst.
  { intros db'. unfold Events.verify_api_key. by destruct (first _ _). }
  rewrite !Hfst. unfold Events.verify_api_key.
  destruct (first (Events.key_matches x_api_key) (Session.devices db)); [|done].
  simpl. by rewrite (first_update_first_other (Device.set_last_seen later)).
Qed.

(** X8. Switching a device off and on again is a round trip: for an active
    registered device, [deactivate_device] followed by [activate_device]
    both answer success and give back the store as it was. *)
Theorem activate_after_deactivate
    (device_id : string) (db : Session.t) (d : Device.t)
    (Hfound : first (Devices.by_device_id device_id) (Session.devices db) = Some d)
    (Hactive : Device.is_active d = true) :
  ∃ db',
    deactivate_device device_id db = (Return (true, "Device deactivated"), db')
    ∧ Devices.activate_device device_id db' = (Return (true, "Device activated"), db).
Proof.
  unfold deactivate_device, Devices.activate_device.
  change (fun d0 : Device.t => bool_decide (Device.device_id d0 = device_id))
    with (Devices.by_device_id device_id).
  rewrite Hfound. eexists. split; [done|]. simpl.
  rewrite (first_update_first (Devices.by_device_id device_id)
             (Device.set_is_active false) (Session.devices db) d) by done.
  rewrite (update_first_undo _ _ _ _ d); [by destruct db | done | done |].
  destruct d. simpl in *. by subst.
Qed.

Lemma activate_after_deactivate_witness :
  ∃ db',
    deactivate_device "D" Sample.db = (Return (true, "Device deactivated"), db')
    ∧ Devices.activate_device "D" db' = (Return (true, "Device activated"), Sample.db).
Proof.
  exact (activate_after_deactivate "D" Sample.db Sample.device_D eq_refl eq_refl).
Defined.

(** X9. [get_device] shows the switch last thrown: for a registered device
    it reports [is_active] false after [deactivate_device] and true after
    [activate_device], with the other fields as stored; for an unknown
    [device_id] all three handlers answer 404 and leave the store alone. *)
Theorem get_device_after_switch (device_id : string) (db : Session.t) :
  match first (Devices.by_device_id device_id) (Session.devices db) with
  | Some d =>
      Devices.get_device device_id (snd (deactivate_device device_id db))
      = Return (DeviceInfo.mk (Device.device_id d) (Device.device_name d)
                  (Device.model d) false (Some (Device.last_seen d)))
      ∧ Devices.get_device device_id (snd (Devices.activate_device device_id db))
        = Return (DeviceInfo.mk (Device.device_id d) (Device.device_name d)
                    (Device.model d) true (Some (Device.last_seen d)))
  | None =>
      Devices.get_device device_id db = HTTPException 404 "Device not found"
      ∧ deactivate_device device_id db = (HTTPException 404 "Device not found", db)
      ∧ Devices.activate_device device_id db
        = (HTTPException 404 "Device not found", db)
  end.
Proof.
  unfold deactivate_device, Devices.activate_device, Devices.get_device.
  change (fun d0 : Device.t => bool_decide (Device.device_id d0 = device_id))
    with (Devices.by_device_id device_id).
  destruct (first _ _) as [d|] eqn:Hfound; [|done]. simpl.
  rewrite !(first_update_first (Devices.by_device_id device_id) _
              (Session.devices db) d) by done.
  done.
Qed.

(** ** Registration *)

Section Registration.
Implicit Types (rows : list Device.t) (db : Session.t).

Lemma no_row_with_id device_id rows :
  first (Devices.by_device_id device_id) rows = None →
  device_id ∉ Device.device_id <$> rows.
Proof.
  rewrite first_None, Forall_forall. intros Hnone Hin.
  apply list_elem_of_fmap in Hin as (d & -> & Hd).
  specialize (Hnone d Hd). unfold Devices.by_device_id in Hnone.
  by rewrite bool_decide_eq_true_2 in Hnone.
Qed.

Lemma NoDup_snoc {B} (l : list B) (x : B) : NoDup l → x ∉ l → NoDup (l ++ [x]).
Proof.
  intros Hl Hx. apply NoDup_app. split; [done|]. split; [|apply NoDup_singleton].
  intros y Hy ->%list_elem_of_singleton. done.
Qed.
End Registration.

(** X10. [register_device] keeps the two columns unique: if no two devices
    share a [device_id] and no two share an [api_key] before the call, the
    same holds after it, whatever token the key generator returns and
    whichever way the call ends. *)
Theorem register_device_keeps_unique
    (token : string) (registration : DeviceRegistration.t) (now : Z) (db : Session.t)
    (Hids : NoDup (Device.device_id <$> Session.devices db))
    (Hkeys : NoDup (Device.api_key <$> Session.devices db)) :
  let db' := snd (Devices.register_device token registration now db) in
  NoDup (Device.device_id <$> Session.devices db')
  ∧ NoDup (Device.api_key <$> Session.devices db').
Proof.
  unfold Devices.register_device.
  destruct (first _ _) as [existing|] eqn:Hfound; simpl.
  - by rewrite !update_first_fmap.
  - case_bool_decide as Htoken; simpl; [done|].
    rewrite !fmap_app. simpl.
    split; apply NoDup_snoc; try done. by apply no_row_with_id.
Qed.

Lemma register_device_keeps_unique_witness :
  let db' := snd (Devices.register_device "K2"
                    (DeviceRegistration.mk "E" "Yard camera" "Pixel" "14")
                    1700000000 Sample.db) in
  NoDup (Device.device_id <$> Session.devices db')
  ∧ NoDup (Device.api_key <$> Session.devices db').
Proof.
  exact (register_device_keeps_unique "K2"
           (DeviceRegistration.mk "E" "Yard camera" "Pixel" "14")
           1700000000 Sample.db sample_ids_unique sample_keys_unique).
Defined.

(** X11. The credential a registration hands out authenticates: after
    [register_device] has answered, for a new device as for a known one,
    [verify_api_key] with the returned [api_key] returns the device of the
    registered [device_id], active and with the registered name.  So a
    device that was switched off is switched on again by registering anew,
    with the credential it had. *)
Theorem register_then_verify
    (token : string) (registration : DeviceRegistration.t) (now later : Z)
    (db db' : Session.t) (response : DeviceRegistrationResponse.t)
    (Hkeys : NoDup (Device.api_key <$> Session.devices db))
    (Hregistered : Devices.register_device token registration now db
                   = (Devices.Served (Return response), db')) :
  ∃ d db'',
    Events.verify_api_key (DeviceRegistrationResponse.api_key response) later db'
    = (Return d, db'')
    ∧ Device.device_id d = DeviceRegistration.device_id registration
    ∧ Device.device_name d = DeviceRegistration.device_name registration
    ∧ Device.is_active d = true
    ∧ Device.last_seen d = later.
Proof.
  unfold Devices.register_device in Hregistered.
  assert (∀ d, NoDup (Device.api_key <$> Session.devices db') →
               d ∈ Session.devices db' →
               Device.api_key d = DeviceRegistrationResponse.api_key response →
               Device.is_active d = true →
               Device.device_id d = DeviceRegistration.device_id registration →
               Device.device_name d = DeviceRegistration.device_name registration →
               ∃ d' db'',
                 Events.verify_api_key (DeviceRegistrationResponse.api_key response)
                   later db' = (Return d', db'')
                 ∧ Device.device_id d' = DeviceRegistration.device_id registration
                 ∧ Device.device_name d' = DeviceRegistration.device_name registration
                 ∧ Device.is_active d' = true
                 ∧ Device.last_seen d' = later) as Hverify.
  { intros d Hnd Hin Hkey Hact Hid Hname.
    pose proof (verify_api_key_first _ _ _ Hnd Hin Hkey Hact) as Hfirst.
    unfold Events.verify_api_key. rewrite Hfirst. eexists _, _. split; [done|].
    destruct d. simpl in *. by subst. }
  destruct (first _ _) as [existing|] eqn:Hfound.
  - injection Hregistered as <- <-.
    pose proof (first_Some_elem _ _ _ Hfound) as [_ Hid].
    apply bool_decide_eq_true in Hid.
    apply (Hverify (Devices.refresh registration now existing)); simpl; try done.
    + by rewrite update_first_fmap.
    + eapply (first_Some_elem (Devices.by_device_id _)), first_update_first;
        [|exact Hfound]. done.
  - case_bool_decide as Htoken; [done|]. injection Hregistered as <- <-.
    eapply Hverify; simpl; try done.
    + rewrite fmap_app. by apply NoDup_snoc.
    + apply elem_of_app. right. apply list_elem_of_singleton. reflexivity.
    + done.
    + done.
    + done.
    + done.
Qed.

Lemma register_then_verify_witness :
  ∃ d db'',
    Events.verify_api_key "K1" 1700000100
      (snd (Devices.register_device "K9" Fixture.registration_D 1700000000
              Fixture.db_off))
    = (Return d, db'')
    ∧ Device.device_id d = "D"
    ∧ Device.device_name d = "Gate camera, new mount"
    ∧ Device.is_active d = true
    ∧ Device.last_seen d = 1700000100%Z.
Proof.
  exact (register_then_verify "K9" Fixture.registration_D 1700000000 1700000100
           Fixture.db_off _ (DeviceRegistrationResponse.mk true "K1"
                               (Some "Device updated successfully"))
           (NoDup_singleton _) eq_refl).
Defined.

(** ** More on batch ingestion *)

Section MoreIngestion.
Import Events.
Variable random_rowid : list Z -> string + Z.
Variable flush_error : Event.t -> option string.
Variable commit_error : list Event.t -> option string.

Lemma add_events_claimed (spoof : EventCreate.t -> string) device events :
  ∀ events_created created_events db,
    add_events random_rowid flush_error device
      ((fun e => Ingest.claim_device (spoof e) e) <$> events)
      events_created created_events db
    = add_events random_rowid flush_error device events events_created created_events db.
Proof.
  induction events as [|e events IH]; intros n created db; [done|].
  rewrite fmap_cons. cbn [add_events].
  change (add_flush random_rowid flush_error device (Ingest.claim_device (spoof e) e) db)
    with (add_flush random_rowid flush_error device e db).
  destruct (add_flush random_rowid flush_error device e db) as [msg|[event db']]; [done|].
  apply IH.
Qed.

(** An accepted batch: the rows it adds and the tasks it queues, those of
    its rows, row after row. *)
Lemma create_events_accepted request device db :
  Session.pending db = [] →
  Forall (fun e => ∀ id, flush_error (new_event device e id) = None)
    (BatchEventRequest.events request) →
  (∀ rows, commit_error rows = None) →
  (Z.of_nat (length (BatchEventRequest.events request)) ≤ Session.max_rowid)%Z →
  Forall (fun e => (Event.id e + Z.of_nat (length (BatchEventRequest.events request))
                    ≤ Session.max_rowid)%Z) (Session.events db) →
  let n := Z.of_nat (length (BatchEventRequest.events request)) in
  ∃ created first,
    let db' := Session.mk (Session.devices db) (Session.employees db)
                 (Session.events db ++ created) [] in
    create_events random_rowid flush_error commit_error request device db
    = (Return (BatchEventResponse.mk true n (Some (success_message n))), db',
       flat_map (fun event => tasks_for event db') created)
    ∧ Forall2 (fun e row => row = new_event device e (Event.id row))
        (BatchEventRequest.events request) created
    ∧ Event.id <$> created = seqZ first n.
Proof.
  intros Hclean Hflush Hcommit Hbatch Hroom n. unfold create_events.
  destruct (add_events_accepted random_rowid flush_error device
              (BatchEventRequest.events request) 0 [] db Hflush Hbatch)
    as (rows & first & Heq & Hrows & Hids & _).
  { by rewrite Hclean, app_nil_r. }
  rewrite Heq. unfold commit, Session.flushed. simpl.
  rewrite Hcommit, Hclean. simpl. by exists rows, first.
Qed.

Lemma tasks_for_pushes (row : Event.t) db :
  length (List.filter Ingest.is_push (tasks_for row db))
  = if bool_decide (Event.event_type row ∈ alert_types) then 1 else 0.
Proof. unfold tasks_for. simpl. by case_bool_decide. Qed.

Lemma tasks_for_broadcasts (row : Event.t) db :
  length (List.filter (fun t => negb (Ingest.is_push t)) (tasks_for row db)) = 1.
Proof. unfold tasks_for. simpl. by case_bool_decide. Qed.

Lemma tasks_for_ids (row : Event.t) db :
  Forall (fun t => Ingest.task_event_id t = Event.id row) (tasks_for row db).
Proof.
  unfold tasks_for. constructor; [done|]. case_bool_decide; repeat constructor.
Qed.
End MoreIngestion.

Lemma StronglySorted_same_then (x : Z) (same later : list Z) :
  Forall (fun i => i = x) same → Forall (fun i => x ≤ i)%Z later →
  StronglySorted Z.le later → StronglySorted Z.le (same ++ later).
Proof.
  intros Hsame Hlater Hsorted. induction Hsame as [|i same -> Hrest IH]; [done|].
  simpl. constructor; [done|]. apply Forall_app. split; [|done].
  eapply Forall_impl; [exact Hrest|]. simpl. intros; lia.
Qed.

(** X12. [create_events] never reads a [device_id] the caller wrote: a
    batch whose events and envelope carry any other device ids gets the same
    response, the same rows and the same tasks as the batch without them. *)
Theorem create_events_ignores_claimed_device
    (random_rowid : list Z -> string + Z)
    (flush_error : Event.t -> option string)
    (commit_error : list Event.t -> option string)
    (spoof : EventCreate.t -> string) (envelope_id other_envelope_id : string)
    (events : list EventCreate.t) (device : Device.t) (db : Session.t) :
  Events.create_events random_rowid flush_error commit_error
    (BatchEventRequest.mk ((fun e => Ingest.claim_device (spoof e) e) <$> events)
       envelope_id)
    device db
  = Events.create_events random_rowid flush_error commit_error
      (BatchEventRequest.mk events other_envelope_id) device db.
Proof.
  unfold Events.create_events. simpl. by rewrite add_events_claimed.
Qed.

Lemma seqZ_le_sorted (first : Z) (n : nat) :
  StronglySorted Z.le (seqZ first (Z.of_nat n)).
Proof.
  revert first. induction n as [|n IH]; intros first; [constructor|].
  rewrite Nat2Z.inj_succ, seqZ_cons, Z.pred_succ by lia.
  constructor; [apply IH|].
  apply Forall_forall. intros i Hi. apply elem_of_seqZ in Hi. lia.
Qed.

(** X13. The fan-out of an accepted batch, task by task.  The queue is made
    of the rows the call added, in the order it added them, one per input:
    each row puts its broadcast task on the queue, with the row's key, type,
    timestamp, licence plate, duration and the name of its employee, and
    right behind it, when the row's type is UNKNOWN_FACE_DETECTED or
    LOITERING_DETECTED, its push task with the same key and type and with
    the employee name, else the licence plate, else the empty string as
    details.  Nothing else is queued.  So the broadcasts are those of the
    new rows, one each and in order, the pushes those of the gated rows, one
    each and in order, the keys are pairwise distinct and never decrease
    along the queue. *)
Theorem create_events_fan_out
    (random_rowid : list Z -> string + Z)
    (flush_error : Event.t -> option string)
    (commit_error : list Event.t -> option string)
    (request : BatchEventRequest.t) (device : Device.t) (db : Session.t)
    (Hclean : Session.pending db = [])
    (Hflush : Forall (fun e => ∀ id, flush_error (Events.new_event device e id) = None)
                (BatchEventRequest.events request))
    (Hcommit : ∀ rows, commit_error rows = None)
    (Hbatch : (Z.of_nat (length (BatchEventRequest.events request))
               ≤ Session.max_rowid)%Z)
    (Hroom : Forall (fun e => (Event.id e
                               + Z.of_nat (length (BatchEventRequest.events request))
                               ≤ Session.max_rowid)%Z)
               (Session.events db)) :
  let result := Events.create_events random_rowid flush_error commit_error
                  request device db in
  let db' := snd (fst result) in
  let tasks := snd result in
  let plate (row : Event.t) := default "" (Event.license_plate row) in
  let details (row : Event.t) :=
    match Events.employee_name_of row db' with
    | Some name => if bool_decide (name = "") then plate row else name
    | None => plate row
    end in
  ∃ created,
    Session.events db' = Session.events db ++ created
    ∧ Forall2 (fun e row => Event.event_type row = EventCreate.type e)
        (BatchEventRequest.events request) created
    ∧ NoDup (Event.id <$> created)
    ∧ tasks
      = flat_map
          (fun row =>
             Events.broadcast_event_task
               (Events.EventDict.mk (Event.id row) (Event.event_type row)
                  (Event.timestamp row) (Events.employee_name_of row db')
                  (Event.license_plate row) (Event.duration row))
             :: (if bool_decide (Event.event_type row
                                 ∈ ["UNKNOWN_FACE_DETECTED"; "LOITERING_DETECTED"])
                 then [Events.send_alert_notification_task (Event.event_type row)
                         (details row) (Event.id row)]
                 else []))
          created
    ∧ omap Ingest.broadcast_of tasks = Event.id <$> created
    ∧ omap Ingest.push_of tasks
      = (fun row => (Event.event_type row, Event.id row))
          <$> List.filter
                (fun row => bool_decide (Event.event_type row
                                         ∈ ["UNKNOWN_FACE_DETECTED"; "LOITERING_DETECTED"]))
                created
    ∧ length (List.filter (fun t => negb (Ingest.is_push t)) tasks)
      = length (BatchEventRequest.events request)
    ∧ length (List.filter Ingest.is_push tasks)
      = length (List.filter Ingest.gated (BatchEventRequest.events request))
    ∧ StronglySorted Z.le (Ingest.task_event_id <$> tasks).
Proof.
  intros result db' tasks plate details.
  destruct (create_events_accepted random_rowid flush_error commit_error request device db
              Hclean Hflush Hcommit Hbatch Hroom) as (created & first & Heq & Hrows & Hids).
  unfold tasks, details, plate, db', result. rewrite Heq. clear Heq. cbn [fst snd].
  set (db1 := Session.mk _ _ _ _).
  assert (∀ row,
            Events.tasks_for row db1
            = Events.broadcast_event_task
                (Events.EventDict.mk (Event.id row) (Event.event_type row)
                   (Event.timestamp row) (Events.employee_name_of row db1)
                   (Event.license_plate row) (Event.duration row))
              :: (if bool_decide (Event.event_type row
                                  ∈ ["UNKNOWN_FACE_DETECTED"; "LOITERING_DETECTED"])
                  then [Events.send_alert_notification_task (Event.event_type row)
                          (match Events.employee_name_of row db1 with
                           | Some name => if bool_decide (name = "")
                                          then default "" (Event.license_plate row)
                                          else name
                           | None => default "" (Event.license_plate row)
                           end) (Event.id row)]
                  else [])) as Htasks.
  { intros row. unfold Events.tasks_for. fold Events.alert_types. f_equal.
    case_bool_decide; [|done]. do 2 f_equal.
    unfold str_or, str_truthy.
    destruct (Events.employee_name_of row db1) as [name|]; simpl.
    - destruct (bool_decide (name = "")) eqn:Hn; simpl; [|by rewrite Hn].
      destruct (Event.license_plate row) as [p|]; simpl; [|done].
      destruct (bool_decide (p = "")) eqn:Hp; simpl; [|done].
      apply bool_decide_eq_true in Hp. by subst.
    - destruct (Event.license_plate row) as [p|]; simpl; [|done].
      destruct (bool_decide (p = "")) eqn:Hp; simpl; [|done].
      apply bool_decide_eq_true in Hp. by subst. }
  exists created. split; [done|]. clearbody db1.
  split.
  { clear -Hrows. induction Hrows as [|e row es rows Hrow _ IH]; constructor; [|done].
    by rewrite Hrow. }
  split.
  { rewrite Hids. apply StronglySorted_lt_NoDup, seqZ_sorted. }
  split.
  { clear -Htasks. induction created as [|row rows IH]; [done|].
    cbn [flat_map]. by rewrite Htasks, IH. }
  split.
  { clear -Htasks. induction created as [|row rows IH]; [done|].
    cbn [flat_map]. rewrite omap_app, IH, Htasks, fmap_cons. simpl.
    by case_bool_decide. }
  split.
  { clear -Htasks. induction created as [|row rows IH]; [done|].
    cbn [flat_map]. rewrite omap_app, IH, Htasks. simpl.
    by case_bool_decide. }
  split.
  { clear -Hrows. induction Hrows as [|e row es rows Hrow _ IH]; [done|].
    cbn [flat_map]. rewrite List.filter_app, length_app, tasks_for_broadcasts, IH.
    done. }
  split.
  { clear -Hrows. induction Hrows as [|e row es rows Hrow _ IH]; [done|].
    cbn [flat_map]. rewrite List.filter_app, length_app, tasks_for_pushes, IH.
    simpl. unfold Ingest.gated at 2. rewrite Hrow. simpl.
    by case_bool_decide. }
  assert (StronglySorted Z.le (Event.id <$> created)) as Hsorted.
  { rewrite Hids. apply seqZ_le_sorted. }
  clear -Hsorted. induction created as [|row rows IH]; [constructor|].
  rewrite fmap_cons in Hsorted. apply StronglySorted_inv in Hsorted as [Htail Hhead].
  cbn [flat_map]. rewrite fmap_app.
  pose proof (tasks_for_ids row db1) as Hids.
  assert (Forall (fun i => Event.id row ≤ i)%Z
            (Ingest.task_event_id
               <$> flat_map (fun event => Events.tasks_for event db1) rows)) as Hlater.
  { clear -Hhead. rewrite Forall_fmap in Hhead.
    induction Hhead as [|r rs Hr _ IH]; [constructor|].
    cbn [flat_map]. rewrite fmap_app. apply Forall_app. split; [|done].
    rewrite Forall_fmap. eapply Forall_impl; [apply tasks_for_ids|].
    simpl in Hr. simpl. intros t ->. lia. }
  apply (StronglySorted_same_then (Event.id row)); [|done|by apply IH].
  rewrite Forall_fmap. eapply Forall_impl; [exact Hids|]. done.
Qed.

Lemma create_events_fan_out_witness :
  let tasks :=
    snd (Events.create_events Sample.no_rowid Sample.accept Sample.accept
           (Sample.request ["UNKNOWN_FACE_DETECTED"; "PERSON_ENTERED"; "LOITERING_DETECTED"])
           Sample.device_D Sample.db) in
  omap Ingest.broadcast_of tasks = [1; 2; 3]%Z
  ∧ omap Ingest.push_of tasks
    = [("UNKNOWN_FACE_DETECTED", 1%Z); ("LOITERING_DETECTED", 3%Z)]
  ∧ length (List.filter (fun t => negb (Ingest.is_push t)) tasks) = 3
  ∧ length (List.filter Ingest.is_push tasks) = 2
  ∧ StronglySorted Z.le (Ingest.task_event_id <$> tasks).
Proof.
  assert (Forall (fun e => ∀ id, @Sample.accept Event.t
                                  (Events.new_event Sample.device_D e id) = None)
            (BatchEventRequest.events
               (Sample.request
                  ["UNKNOWN_FACE_DETECTED"; "PERSON_ENTERED"; "LOITERING_DETECTED"])))
    as Hflush by (apply Forall_forall; reflexivity).
  destruct (create_events_fan_out Sample.no_rowid Sample.accept Sample.accept
              (Sample.request ["UNKNOWN_FACE_DETECTED"; "PERSON_ENTERED"; "LOITERING_DETECTED"])
              Sample.device_D Sample.db eq_refl Hflush (fun _ => eq_refl)
              ltac:(vm_compute; discriminate) (Forall_nil_2 _))
    as (created & _ & _ & _ & _ & _ & _ & Hb & Hp & Hsorted).
  split; [reflexivity|]. split; [reflexivity|].
  split; [exact Hb|]. split; [exact Hp | exact Hsorted].
Defined.

(** ** More on the subscription table and the keys *)

(** X14. Subscribing and unsubscribing through the two endpoints is a round
    trip: when the endpoint of a posted dictionary can be a key and is not in
    the table, [subscribe_to_push] stores the body under it, last in the
    table, with success, and [unsubscribe_from_push] with the same body takes
    the entry off again, giving back the state before.  For an endpoint that
    is a string, the empty one and a missing one included, the second call
    answers success; for [null] or a number the entry is deleted all the same
    and the call then raises [TypeError].  A body that [subscribe_to_push]
    turns away, one that is no dictionary or whose endpoint is a list or a
    dictionary, changes nothing, and [unsubscribe_from_push] raises on it. *)
Theorem subscribe_unsubscribe_round_trip
    (entries : list (string * Json.t)) (key : Key.t) (w : Push.World.t)
    (Hkey : Key.of_value (default (Json.str "") (Json.get "endpoint" entries)) = Some key)
    (Hnew : PyDict.get key (Push.World.push_subscriptions w) = None) :
  let body := Json.object entries in
  (∃ w',
     Main.subscribe_to_push body w = (true, w')
     ∧ Push.World.push_subscriptions w'
       = Push.World.push_subscriptions w ++ [(key, Push.SubData.mk body "anonymous")]
     ∧ Main.unsubscribe_from_push body w'
       = (match key with
          | Key.str _ => Returns true
          | Key.none => Raises TypeError
          | Key.number _ => Raises TypeError
          end, w))
  ∧ ∀ other : Json.t,
      fst (Main.subscribe_to_push other w) = false →
      Main.subscribe_to_push other w = (false, w)
      ∧ ∃ e, Main.unsubscribe_from_push other w = (Raises e, w).
Proof.
  intros body. split.
  - unfold Main.subscribe_to_push, Main.unsubscribe_from_push, body, Push.subscribe,
      Push.unsubscribe. rewrite Hkey. apply get_None in Hnew.
    eexists. split; [done|]. cbn [Push.World.with_subscriptions Push.World.push_subscriptions].
    split; [by apply set_fresh|].
    rewrite bool_decide_eq_true_2 by (apply elem_of_keys; rewrite get_set_eq; by eexists).
    rewrite del_set_fresh by done. destruct w. unfold Push.World.with_subscriptions.
    simpl. by destruct key.
  - intros other Hrefused. unfold Main.subscribe_to_push, Main.unsubscribe_from_push,
      Push.subscribe, Push.unsubscribe in *.
    destruct other as [|b|n|s|items|entries']; try (split; [done | by eexists]).
    destruct (Key.of_value (default (Json.str "") (Json.get "endpoint" entries')))
      as [key'|]; [by simpl in Hrefused|].
    split; [done | by eexists].
Qed.

Lemma subscribe_unsubscribe_round_trip_witness :
  (∃ w',
     Main.subscribe_to_push (Json.object []) Sample.one_subscriber = (true, w')
     ∧ Main.unsubscribe_from_push (Json.object []) w'
       = (Returns true, Sample.one_subscriber))
  ∧ (∃ w',
       Main.subscribe_to_push (Json.object [("endpoint", Json.null)]) Sample.one_subscriber
       = (true, w')
       ∧ Main.unsubscribe_from_push (Json.object [("endpoint", Json.null)]) w'
         = (Raises TypeError, Sample.one_subscriber))
  ∧ Main.subscribe_to_push (Json.object [("endpoint", Json.array [])]) Sample.one_subscriber
    = (false, Sample.one_subscriber).
Proof.
  split; [|split].
  - destruct (subscribe_unsubscribe_round_trip [] (Key.str "") Sample.one_subscriber
                eq_refl eq_refl) as [(w' & Hsub & _ & Hunsub) _].
    exists w'. split; [exact Hsub | exact Hunsub].
  - destruct (subscribe_unsubscribe_round_trip [("endpoint", Json.null)] Key.none
                Sample.one_subscriber eq_refl eq_refl) as [(w' & Hsub & _ & Hunsub) _].
    exists w'. split; [exact Hsub | exact Hunsub].
  - destruct (subscribe_unsubscribe_round_trip [] (Key.str "") Sample.one_subscriber
                eq_refl eq_refl) as [_ Hother].
    exact (proj1 (Hother (Json.object [("endpoint", Json.array [])]) eq_refl)).
Defined.

(** X15. [unsubscribe] of a string answers whether the endpoint was in the
    table, never raises, and after it the endpoint is not in the table:
    every other entry, the key files and the log are as before, and
    unsubscribing the same endpoint again answers [False] and changes
    nothing. *)
Theorem unsubscribe_exactly (endpoint : string) (w : Push.World.t) :
  let answer := fst (Push.unsubscribe (Json.str endpoint) w) in
  let after := snd (Push.unsubscribe (Json.str endpoint) w) in
  (answer = Returns true
   ↔ is_Some (PyDict.get (Key.str endpoint) (Push.World.push_subscriptions w)))
  ∧ (answer = Returns false
     ↔ PyDict.get (Key.str endpoint) (Push.World.push_subscriptions w) = None)
  ∧ PyDict.get (Key.str endpoint) (Push.World.push_subscriptions after) = None
  ∧ (∀ other, other ≠ Key.str endpoint →
       PyDict.get other (Push.World.push_subscriptions after)
       = PyDict.get other (Push.World.push_subscriptions w))
  ∧ Push.World.vapid_private_pem after = Push.World.vapid_private_pem w
  ∧ Push.World.vapid_public_txt after = Push.World.vapid_public_txt w
  ∧ Push.World.generated after = Push.World.generated w
  ∧ Push.World.log after = Push.World.log w
  ∧ Push.unsubscribe (Json.str endpoint) after = (Returns false, after).
Proof.
  unfold Push.unsubscribe. cbn [Key.of_value Key.sliceable].
  case_bool_decide as Hin; cbn [fst snd].
  - pose proof Hin as Hsome. apply elem_of_keys in Hsome.
    split; [done|]. split; [split; [done|]; intros Hnone; destruct Hsome; congruence|].
    cbn [Push.World.with_subscriptions Push.World.push_subscriptions].
    split; [apply get_del_eq|].
    split; [intros other Hne; by apply get_del_ne|].
    do 4 (split; [done|]).
    rewrite bool_decide_eq_false_2; [done|].
    apply get_None, get_del_eq.
  - pose proof Hin as Hnone. apply get_None in Hnone.
    split; [split; [done|]; rewrite Hnone; by intros [? ?]|].
    split; [done|]. split; [done|].
    do 5 (split; [done|]). by rewrite bool_decide_eq_false_2.
Qed.

(** X16. When one of the two key files is missing, the next request for
    the public key writes both files anew from one generated pair, an
    existing private key being overwritten, and answers the public half of
    that pair; the private key read right after is the other half of the
    same pair, and no second pair is generated for it. *)
Theorem vapid_keys_of_one_pair
    (generate_private_key : nat -> string * string) (w : Push.World.t)
    (Hmissing : Push.World.vapid_private_pem w = None
                ∨ Push.World.vapid_public_txt w = None) :
  let pair := generate_private_key (Push.World.generated w) in
  let w' := Push.World.mk (Some (fst pair)) (Some (snd pair))
              (S (Push.World.generated w))
              (Push.World.push_subscriptions w) (Push.World.log w) in
  Push.get_vapid_public_key generate_private_key w
  = (Some (Push.strip (snd pair)), w')
  ∧ Push.get_vapid_private_key generate_private_key w'
    = (Some (Push.strip (fst pair)), Push.World.record Push.read_private_key w').
Proof.
  unfold Push.get_vapid_public_key, Push.get_vapid_private_key,
    Push.generate_vapid_keys.
  destruct w as [pem pub n subs log]. simpl in *.
  destruct (generate_private_key n) as [private_pem public_key_b64]. simpl.
  destruct Hmissing as [->| ->]; [|destruct pem]; done.
Qed.

Lemma vapid_keys_of_one_pair_witness :
  Push.get_vapid_public_key Sample.key_pairs Fixture.half_keyed
  = (Some "PUBLIC-0", Push.World.mk (Some "PRIVATE-0") (Some "PUBLIC-0") 1 [] [])
  ∧ Push.get_vapid_private_key Sample.key_pairs
      (Push.World.mk (Some "PRIVATE-0") (Some "PUBLIC-0") 1 [] [])
    = (Some "PRIVATE-0",
       Push.World.record Push.read_private_key
         (Push.World.mk (Some "PRIVATE-0") (Some "PUBLIC-0") 1 [] [])).
Proof.
  exact (vapid_keys_of_one_pair Sample.key_pairs Fixture.half_keyed (or_intror eq_refl)).
Defined.

(** ** More on the dispatcher *)

Lemma prefix_sublist {A} (l1 l2 : list A) : l1 `prefix_of` l2 → l1 `sublist_of` l2.
Proof. intros [k ->]. by apply sublist_inserts_r. Qed.

Lemma sample_subscribed_dict :
  NoDup (PyDict.keys (Push.World.push_subscriptions Sample.subscribed)).
Proof. apply (bool_decide_unpack _). vm_compute. exact I. Qed.

Lemma sample_subscribed_strings :
  Forall (fun k => Key.sliceable k = true)
    (PyDict.keys (Push.World.push_subscriptions Sample.subscribed)).
Proof. repeat constructor. Qed.

(** X17. What a sweep does to a subscriber, whatever truth value the
    response objects have.  The entry is kept as it was after a delivery
    that went through, an exception without response, a response that is
    falsy or has another status than 404 and 410, or any other exception.
    After a [WebPushException] whose response is truthy and has status 404
    or 410 the entry is removed, provided the sweep returns; and the sweep
    returns whenever every key of the table is a string, as the clean-up can
    only raise on a key that is none.  [Hdict] says that the table is a
    dictionary: its keys are distinct. *)
Theorem send_push_notification_removes_expired
    (generate_private_key : nat -> string * string) (host : string)
    (webpush : Json.t -> Push.Payload.t -> string -> string -> Push.WebPushResult)
    (truthy : Push.HTTPResponse.t -> bool)
    (title body url tag : string) (event_id : option Z) (w : Push.World.t)
    (endpoint : Key.t) (sub_data : Push.SubData.t)
    (Hdict : NoDup (PyDict.keys (Push.World.push_subscriptions w)))
    (Hsubscribed : PyDict.get endpoint (Push.World.push_subscriptions w) = Some sub_data) :
  let data := Push.Payload.mk title body url tag event_id in
  let result := Push.send_push_notification generate_private_key host webpush truthy
                  title body url tag event_id w in
  let after := snd result in
  let expired :=
    match webpush (Push.SubData.subscription sub_data) data
            (Push.signing_key generate_private_key w) (Push.vapid_claims host) with
    | Push.RaisesWebPushException (Some response) =>
        truthy response
        && bool_decide (Push.HTTPResponse.status_code response ∈ [404%Z; 410%Z])
    | _ => false
    end in
  (Forall (fun k => Key.sliceable k = true) (PyDict.keys (Push.World.push_subscriptions w)) →
   fst result = Returns tt)
  ∧ (fst result = Returns tt →
     PyDict.get endpoint (Push.World.push_subscriptions after)
     = if expired then None else Some sub_data)
  ∧ (expired = false →
     PyDict.get endpoint (Push.World.push_subscriptions after) = Some sub_data)
  ∧ (PyDict.get endpoint (Push.World.push_subscriptions after) = None
     ∨ PyDict.get endpoint (Push.World.push_subscriptions after) = Some sub_data).
Proof.
  intros data result after expired.
  destruct (send_push_notification_spec generate_private_key host webpush truthy
              title body url tag event_id w)
    as (processed & Hpre & Hres & _ & Hsubs).
  fold data result in Hpre, Hres, Hsubs. fold after in Hsubs.
  set (marked_endpoints := omap _ _) in Hpre, Hres.
  assert (Push.marked host webpush truthy data
            (Push.signing_key generate_private_key w) sub_data = expired) as Hmarked.
  { unfold Push.marked, expired, Push.expired.
    by destruct (webpush _ _ _ _) as [|[response|]|]. }
  assert (endpoint ∈ marked_endpoints ↔ expired = true) as Hin.
  { unfold marked_endpoints. rewrite elem_of_marked_endpoints, <- Hmarked. split.
    - intros (sd & Hsd & Hm). apply (get_elem _ _ _ Hdict) in Hsd. congruence.
    - intros Hm. exists sub_data. split; [by apply get_Some_elem | done]. }
  assert (PyDict.get endpoint (Push.World.push_subscriptions after)
          = if bool_decide (endpoint ∈ processed) then None else Some sub_data) as Hget.
  { by rewrite Hsubs, get_without, Hsubscribed. }
  assert (processed ⊆ marked_endpoints) as Hsub.
  { by apply sublist_subseteq, prefix_sublist. }
  split; [|split; [|split]].
  - intros Hstr. destruct Hres as [[-> _]|[_ Hex]]; [done|]. exfalso.
    apply Exists_exists in Hex as (k & Hk & Hslice).
    rewrite Forall_forall in Hstr. rewrite (Hstr k) in Hslice; [done|].
    apply Hsub in Hk.
    by apply (sublist_subseteq _ _
                (marked_endpoints_sublist host webpush truthy data
                   (Push.signing_key generate_private_key w)
                   (Push.World.push_subscriptions w))).
  - intros Hreturns. rewrite Hget.
    destruct Hres as [[_ ->]|[Hraises _]]; [|congruence].
    destruct expired.
    + by rewrite bool_decide_eq_true_2 by by apply Hin.
    + rewrite bool_decide_eq_false_2; [done|]. by intros ?%Hin.
  - intros Hkept. rewrite Hget, bool_decide_eq_false_2; [done|].
    intros Hk%Hsub%Hin. congruence.
  - rewrite Hget. destruct (bool_decide _); by eauto.
Qed.

Lemma send_push_notification_removes_expired_witness :
  let result := Push.send_push_notification Sample.key_pairs "0.0.0.0" Sample.service
                  Fixture.always_truthy "Loitering Alert" "Unusual activity detected"
                  "/events" "alert-loitering_detected" None Sample.subscribed in
  fst result = Returns tt
  ∧ PyDict.get (Key.str Sample.gone) (Push.World.push_subscriptions (snd result)) = None
  ∧ PyDict.get (Key.str Sample.busy) (Push.World.push_subscriptions (snd result))
    = Some (Push.SubData.mk (Sample.subscription Sample.busy) "anonymous").
Proof.
  destruct (send_push_notification_removes_expired Sample.key_pairs "0.0.0.0"
              Sample.service Fixture.always_truthy "Loitering Alert"
              "Unusual activity detected" "/events" "alert-loitering_detected" None
              Sample.subscribed (Key.str Sample.gone)
              (Push.SubData.mk (Sample.subscription Sample.gone) "anonymous")
              sample_subscribed_dict eq_refl) as (Hreturns & Hgone & _).
  destruct (send_push_notification_removes_expired Sample.key_pairs "0.0.0.0"
              Sample.service Fixture.always_truthy "Loitering Alert"
              "Unusual activity detected" "/events" "alert-loitering_detected" None
              Sample.subscribed (Key.str Sample.busy)
              (Push.SubData.mk (Sample.subscription Sample.busy) "anonymous")
              sample_subscribed_dict eq_refl) as (_ & _ & Hbusy & _).
  split; [exact (Hreturns sample_subscribed_strings)|].
  split; [exact (Hgone (Hreturns sample_subscribed_strings)) | exact (Hbusy eq_refl)].
Defined.

(** X18. The order of a sweep: for every subscriber in turn, in the order
    of the table, which is the order the endpoints were first subscribed in,
    the private key is read and one delivery is tried, whatever the earlier
    deliveries did; only when all have been tried do the removals follow, in
    the order of the table again, exactly one for each endpoint that leaves
    the table and none for any other.  The entries that stay keep their
    order, and when the sweep returns the removed endpoints are all those
    whose delivery passed the guard.  [Hdict] says that the table is a
    dictionary: its keys are distinct. *)
Theorem send_push_notification_order
    (generate_private_key : nat -> string * string) (host : string)
    (webpush : Json.t -> Push.Payload.t -> string -> string -> Push.WebPushResult)
    (truthy : Push.HTTPResponse.t -> bool)
    (title body url tag : string) (event_id : option Z) (w : Push.World.t)
    (Hdict : NoDup (PyDict.keys (Push.World.push_subscriptions w))) :
  let data := Push.Payload.mk title body url tag event_id in
  let result := Push.send_push_notification generate_private_key host webpush truthy
                  title body url tag event_id w in
  let after := snd result in
  ∃ removed : list Key.t,
    Push.World.log after
    = Push.World.log w
      ++ flat_map (fun item : Key.t * Push.SubData.t =>
                     [Push.read_private_key;
                      Push.webpush_call (fst item) data
                        (Push.signing_key generate_private_key w)])
           (Push.World.push_subscriptions w)
      ++ (Push.unsubscribe_call <$> removed)
    ∧ NoDup removed
    ∧ removed `sublist_of` PyDict.keys (Push.World.push_subscriptions w)
    ∧ (∀ endpoint,
         endpoint ∈ removed
         ↔ is_Some (PyDict.get endpoint (Push.World.push_subscriptions w))
           ∧ PyDict.get endpoint (Push.World.push_subscriptions after) = None)
    ∧ Push.World.push_subscriptions after
      = filter (fun item => fst item ∉ removed) (Push.World.push_subscriptions w)
    ∧ (fst result = Returns tt →
       removed
       = omap (fun item : Key.t * Push.SubData.t =>
                 if Push.marked host webpush truthy data
                      (Push.signing_key generate_private_key w) (snd item)
                 then Some (fst item) else None)
           (Push.World.push_subscriptions w)).
Proof.
  intros data result after.
  destruct (send_push_notification_spec generate_private_key host webpush truthy
              title body url tag event_id w)
    as (processed & Hpre & Hres & Hlog & Hsubs).
  fold data result in Hpre, Hres, Hlog, Hsubs. fold after in Hlog, Hsubs.
  assert (processed `sublist_of` PyDict.keys (Push.World.push_subscriptions w)) as Hsub.
  { etrans; [by apply prefix_sublist|]. apply marked_endpoints_sublist. }
  exists processed. split; [exact Hlog|].
  split; [by eapply sublist_NoDup|]. split; [done|].
  split; [|split; [done|]].
  - intros endpoint. rewrite Hsubs, get_without. split.
    + intros Hin. split; [by apply elem_of_keys, (sublist_subseteq _ _ Hsub)|].
      by rewrite bool_decide_eq_true_2.
    + intros [[sd Hsd] Hnone]. case_bool_decide as Hin; [done|]. congruence.
  - intros Hreturns. destruct Hres as [[_ ->]|[Hraises _]]; [done | congruence].
Qed.

Lemma send_push_notification_order_witness :
  let data := Push.Payload.mk "Loitering Alert" "Unusual activity detected" "/events"
                "alert-loitering_detected" None in
  let result := Push.send_push_notification Sample.key_pairs "0.0.0.0" Sample.service
                  Fixture.always_truthy "Loitering Alert" "Unusual activity detected"
                  "/events" "alert-loitering_detected" None Sample.subscribed in
  ∃ removed,
    Push.World.log (snd result)
    = [Push.read_private_key; Push.webpush_call (Key.str Sample.gone) data "PRIVATE-0";
       Push.read_private_key; Push.webpush_call (Key.str Sample.busy) data "PRIVATE-0";
       Push.read_private_key; Push.webpush_call (Key.str Sample.live) data "PRIVATE-0"]
      ++ (Push.unsubscribe_call <$> removed)
    ∧ NoDup removed.
Proof.
  destruct (send_push_notification_order Sample.key_pairs "0.0.0.0" Sample.service
              Fixture.always_truthy "Loitering Alert" "Unusual activity detected"
              "/events" "alert-loitering_detected" None Sample.subscribed
              sample_subscribed_dict) as (removed & Hlog & Hnodup & _).
  exists removed. split; [exact Hlog | exact Hnodup].
Defined.

(** ** More on the live connections *)

Section MoreBroadcast.
Import ConnectionManager.
Context {Message : Type}.
Variable json_dumps : Message -> string.
Variable send_text_raises : positive -> string -> bool.
Implicit Types (c : positive) (wire : gmap positive (list string)).

(** What one sweep does to a member of the set. *)
Lemma broadcast_member (message : Message) (self : t) wire c :
  c ∈ active_connections self →
  let after := broadcast json_dumps send_text_raises message self wire in
  (c ∈ active_connections (fst after)
   ↔ send_text_raises c (json_dumps message) = false)
  ∧ frames c (snd after)
    = if send_text_raises c (json_dumps message) then frames c wire
      else frames c wire ++ [json_dumps message].
Proof.
  intros Hc after. unfold after, broadcast.
  case_bool_decide as Hempty; [set_solver|].
  destruct (broadcast_loop send_text_raises (json_dumps message)
              (elements (active_connections self)) (NoDup_elements _) ∅ wire)
    as [Hd Hw].
  destruct (foldl _ _ _) as [disconnected wire']. simpl in *.
  specialize (Hd c). specialize (Hw c). rewrite elem_of_elements in Hd.
  rewrite bool_decide_eq_true_2 in Hw by (by rewrite elem_of_elements).
  rewrite Hw, elem_of_difference, Hd.
  destruct (send_text_raises c (json_dumps message)); simpl.
  - split; [|done]. split; [|done]. intros [_ Hnot]. exfalso. apply Hnot. by right.
  - split; [|done]. split; [done|]. intros _. split; [done|].
    intros [?|[_ ?]]; [set_solver | done].
Qed.

(** The set after a sweep is within the set before. *)
Lemma broadcast_subset (message : Message) (self : t) wire c :
  c ∈ active_connections (fst (broadcast json_dumps send_text_raises message self wire)) →
  c ∈ active_connections self.
Proof.
  unfold broadcast. case_bool_decide; [done|].
  destruct (foldl _ _ _) as [disconnected wire']. simpl. set_solver.
Qed.
End MoreBroadcast.

(** X19. Two broadcasts in a row, an event and then the statistics: a
    registered connection on which both sends go through is written the two
    texts in that order and stays registered; one whose first send raises is
    removed and is written neither text, the second is not even tried on it;
    one whose second send raises keeps the first text and is removed. *)
Theorem broadcast_event_then_stats {Dict : Type}
    (json_dumps : Broadcasts.Message Dict -> string)
    (send_text_raises : positive -> string -> bool)
    (event stats : Dict) (self : ConnectionManager.t)
    (wire : gmap positive (list string)) (c : positive)
    (Hc : c ∈ ConnectionManager.active_connections self) :
  let event_json := json_dumps (Broadcasts.new_event event None) in
  let stats_json := json_dumps (Broadcasts.stats_update stats) in
  let first_sweep :=
    Broadcasts.broadcast_event json_dumps send_text_raises event None self wire in
  let after :=
    Broadcasts.broadcast_stats json_dumps send_text_raises stats
      (fst first_sweep) (snd first_sweep) in
  if send_text_raises c event_json
  then (c ∉ ConnectionManager.active_connections (fst after))
       ∧ (ConnectionManager.frames c (snd after) = ConnectionManager.frames c wire)
  else if send_text_raises c stats_json
  then (c ∉ ConnectionManager.active_connections (fst after))
       ∧ (ConnectionManager.frames c (snd after)
          = ConnectionManager.frames c wire ++ [event_json])
  else (c ∈ ConnectionManager.active_connections (fst after))
       ∧ (ConnectionManager.frames c (snd after)
          = ConnectionManager.frames c wire ++ [event_json; stats_json]).
Proof.
  intros event_json stats_json first_sweep after.
  unfold after, first_sweep, Broadcasts.broadcast_stats, Broadcasts.broadcast_event.
  destruct (broadcast_member json_dumps send_text_raises
              (Broadcasts.new_event event None) self wire c Hc) as [Hin1 Hw1].
  fold event_json in Hin1, Hw1.
  destruct (send_text_raises c event_json) eqn:Hr1.
  - assert (c ∉ ConnectionManager.active_connections
                  (fst (ConnectionManager.broadcast json_dumps send_text_raises
                          (Broadcasts.new_event event None) self wire))) as Hout
      by (rewrite Hin1; done).
    destruct (broadcast_outsider json_dumps send_text_raises
                (Broadcasts.stats_update stats) _
                (snd (ConnectionManager.broadcast json_dumps send_text_raises
                        (Broadcasts.new_event event None) self wire)) c Hout)
      as [Hout2 Hw2].
    split; [done|]. by rewrite Hw2, Hw1.
  - destruct (broadcast_member json_dumps send_text_raises
                (Broadcasts.stats_update stats)
                (fst (ConnectionManager.broadcast json_dumps send_text_raises
                        (Broadcasts.new_event event None) self wire))
                (snd (ConnectionManager.broadcast json_dumps send_text_raises
                        (Broadcasts.new_event event None) self wire)) c
                (proj2 Hin1 eq_refl)) as [Hin2 Hw2].
    fold stats_json in Hin2, Hw2. rewrite Hw2, Hw1.
    destruct (send_text_raises c stats_json) eqn:Hr2.
    + split; [|done]. rewrite Hin2. done.
    + split; [by apply Hin2|]. by rewrite <- app_assoc.
Qed.

Lemma broadcast_event_then_stats_witness :
  let first_sweep :=
    Broadcasts.broadcast_event (fun _ : Broadcasts.Message string => "json")
      Sample.second_is_dead "event" None Sample.connections ∅ in
  let after :=
    Broadcasts.broadcast_stats (fun _ : Broadcasts.Message string => "json")
      Sample.second_is_dead "stats" (fst first_sweep) (snd first_sweep) in
  ((2%positive ∉ ConnectionManager.active_connections (fst after))
   ∧ (ConnectionManager.frames 2 (snd after) = []))
  ∧ ((3%positive ∈ ConnectionManager.active_connections (fst after))
     ∧ (ConnectionManager.frames 3 (snd after) = ["json"; "json"])).
Proof.
  assert (2%positive ∈ ConnectionManager.active_connections Sample.connections) as H2
    by (unfold Sample.connections; simpl; set_solver).
  assert (3%positive ∈ ConnectionManager.active_connections Sample.connections) as H3
    by (unfold Sample.connections; simpl; set_solver).
  split.
  - exact (broadcast_event_then_stats (fun _ : Broadcasts.Message string => "json")
             Sample.second_is_dead "event" "stats" Sample.connections ∅ 2%positive H2).
  - exact (broadcast_event_then_stats (fun _ : Broadcasts.Message string => "json")
             Sample.second_is_dead "event" "stats" Sample.connections ∅ 3%positive H3).
Defined.

(** X20. A broadcast only ever shrinks the set and only writes to its
    members: every connection registered afterwards was registered before, a
    connection outside the set is written nothing, and when no send raises
    the manager is exactly as before. *)
Theorem broadcast_keeps_within {Message : Type}
    (json_dumps : Message -> string) (send_text_raises : positive -> string -> bool)
    (message : Message) (self : ConnectionManager.t)
    (wire : gmap positive (list string)) :
  let after := ConnectionManager.broadcast json_dumps send_text_raises message self wire in
  (∀ c, c ∈ ConnectionManager.active_connections (fst after) →
        c ∈ ConnectionManager.active_connections self)
  ∧ (∀ c, c ∉ ConnectionManager.active_connections self →
          ConnectionManager.frames c (snd after) = ConnectionManager.frames c wire)
  ∧ ((∀ c, c ∈ ConnectionManager.active_connections self →
           send_text_raises c (json_dumps message) = false) →
     fst after = self).
Proof.
  intros after. split; [|split].
  - intros c. apply broadcast_subset.
  - intros c Hc. by apply broadcast_outsider.
  - intros Hok. destruct self as [active].
    assert (ConnectionManager.active_connections (fst after) = active) as Hsame.
    { apply set_eq. intros c. split; [apply broadcast_subset|].
      intros Hc. apply (broadcast_member json_dumps send_text_raises message
                          (ConnectionManager.mk active) wire c Hc). by apply Hok. }
    destruct (fst after). simpl in Hsame. by subst.
Qed.

(** X21. Leaving and joining: after [disconnect] a connection is not in the
    set and no later broadcast writes to it or brings it back; [disconnect]
    after [connect] of a connection that was not registered gives back the
    manager as it was, and [connect] of a registered connection changes
    nothing. *)
Theorem disconnect_stops_delivery {Message : Type}
    (json_dumps : Message -> string) (send_text_raises : positive -> string -> bool)
    (message : Message) (self : ConnectionManager.t)
    (wire : gmap positive (list string)) (c : positive) :
  let left := ConnectionManager.disconnect c self in
  let after := ConnectionManager.broadcast json_dumps send_text_raises message left wire in
  (c ∉ ConnectionManager.active_connections left)
  ∧ (c ∉ ConnectionManager.active_connections (fst after))
  ∧ (ConnectionManager.frames c (snd after) = ConnectionManager.frames c wire)
  ∧ (c ∉ ConnectionManager.active_connections self →
     ConnectionManager.disconnect c (ConnectionManager.connect c self) = self)
  ∧ (c ∈ ConnectionManager.active_connections self →
     ConnectionManager.connect c self = self).
Proof.
  intros left after.
  assert (c ∉ ConnectionManager.active_connections left) as Hleft
    by (unfold left, ConnectionManager.disconnect; simpl; set_solver).
  split; [done|].
  destruct (broadcast_outsider json_dumps send_text_raises message left wire c Hleft)
    as [Hout Hw].
  split; [done|]. split; [done|].
  destruct self as [active]. unfold ConnectionManager.disconnect,
    ConnectionManager.connect. simpl.
  split; intros Hc; f_equal; apply set_eq; set_solver.
Qed.

(** ** The ingestion endpoint, end to end *)

(** X22. A request with a credential that no active device has is turned
    away before the handler runs: the endpoint answers 401, the store is as
    before, no event is persisted and no broadcast or push task is queued. *)
Theorem post_events_unauthorized
    (random_rowid : list Z -> string + Z)
    (flush_error : Event.t -> option string)
    (commit_error : list Event.t -> option string)
    (x_api_key : string) (now : Z) (request : BatchEventRequest.t) (db : Session.t)
    (Hnone : ∀ d, d ∈ Session.devices db → Device.api_key d = x_api_key →
                  Device.is_active d = false) :
  Ingest.post_events random_rowid flush_error commit_error x_api_key now request db
  = (HTTPException 401 "Invalid or inactive API key", db, []).
Proof.
  unfold Ingest.post_events. by rewrite verify_api_key_unauthorized.
Qed.

Lemma post_events_unauthorized_witness :
  Ingest.post_events Sample.no_rowid Sample.accept Sample.accept "WRONG" 1700000000
    (Sample.request ["UNKNOWN_FACE_DETECTED"]) Sample.db
  = (HTTPException 401 "Invalid or inactive API key", Sample.db, []).
Proof.
  apply (post_events_unauthorized Sample.no_rowid Sample.accept Sample.accept "WRONG" 1700000000
           (Sample.request ["UNKNOWN_FACE_DETECTED"]) Sample.db).
  intros d Hd Hk. apply list_elem_of_singleton in Hd. subst d. discriminate Hk.
Defined.

(** X23. A request with the credential of an active device is served in
    that device's name: when the store accepts the writes and has room for
    the batch, the endpoint answers success with the number of events; the
    row of the device in the store has [last_seen] equal to the time of the
    request and its other fields as before, and so has every row with that
    credential; and every row added to the events table carries the
    [device_id] of the device that owns the credential, whatever ids the
    body names. *)
Theorem post_events_attributes_to_key_owner
    (random_rowid : list Z -> string + Z)
    (flush_error : Event.t -> option string)
    (commit_error : list Event.t -> option string)
    (x_api_key : string) (now : Z) (request : BatchEventRequest.t)
    (db : Session.t) (d : Device.t)
    (Hkeys : NoDup (Device.api_key <$> Session.devices db))
    (Hd : d ∈ Session.devices db)
    (Hkey : Device.api_key d = x_api_key)
    (Hactive : Device.is_active d = true)
    (Hclean : Session.pending db = [])
    (Hflush : Forall (fun e => ∀ id, flush_error (Events.new_event d e id) = None)
                (BatchEventRequest.events request))
    (Hcommit : ∀ rows, commit_error rows = None)
    (Hbatch : (Z.of_nat (length (BatchEventRequest.events request))
               ≤ Session.max_rowid)%Z)
    (Hroom : Forall (fun e => (Event.id e
                               + Z.of_nat (length (BatchEventRequest.events request))
                               ≤ Session.max_rowid)%Z)
               (Session.events db)) :
  let n := Z.of_nat (length (BatchEventRequest.events request)) in
  ∃ created db' tasks device,
    Ingest.post_events random_rowid flush_error commit_error x_api_key now request db
    = (Return (BatchEventResponse.mk true n (Some (Events.success_message n))),
       db', tasks)
    ∧ Session.events db' = Session.events db ++ created
    ∧ length created = length (BatchEventRequest.events request)
    ∧ Forall (fun row => Event.device_id row = Device.device_id d) created
    ∧ device ∈ Session.devices db'
    ∧ device = Device.mk (Device.id d) (Device.device_id d) (Device.device_name d)
                 (Device.model d) (Device.os_version d) (Device.api_key d)
                 (Device.is_active d) now
    ∧ Device.last_seen device = now
    ∧ (∀ r, r ∈ Session.devices db' → Device.api_key r = x_api_key →
            Device.last_seen r = now).
Proof.
  intros n. unfold Ingest.post_events, Events.verify_api_key.
  rewrite (verify_api_key_first _ _ _ Hkeys Hd Hkey Hactive).
  set (db1 := Session.with_devices _ db).
  destruct (create_events_accepted random_rowid flush_error commit_error request
              (Device.set_last_seen now d) db1 Hclean Hflush Hcommit Hbatch Hroom)
    as (rows & first & Heq & Hrows & _).
  rewrite Heq. fold n.
  exists rows. eexists _, _, (Device.set_last_seen now d). split; [done|]. simpl.
  split; [done|]. split; [symmetry; by eapply Forall2_length|]. split.
  { clear -Hrows. induction Hrows as [|e row es rows Hrow _ IH]; constructor; [|done].
    by rewrite Hrow. }
  split.
  { eapply (first_Some_elem (Events.key_matches x_api_key)), first_update_first;
      [done|]. by apply verify_api_key_first. }
  do 2 (split; [done|]).
  intros r Hr Hk. rewrite (update_first_key _ _ _ d) in Hr by done.
  apply list_elem_of_fmap in Hr as (r0 & -> & _).
  destruct (bool_decide (Device.api_key r0 = x_api_key)) eqn:Hk0; [done|].
  by apply bool_decide_eq_false in Hk0.
Qed.

Lemma post_events_attributes_to_key_owner_witness :
  ∃ created db' tasks,
    Ingest.post_events Sample.no_rowid Sample.accept Sample.accept "K1" 1700000000
      (Sample.request ["UNKNOWN_FACE_DETECTED"; "VEHICLE_ENTERED"]) Sample.db
    = (Return (BatchEventResponse.mk true 2 (Some "Successfully processed 2 events")),
       db', tasks)
    ∧ Session.events db' = created
    ∧ length created = 2
    ∧ Forall (fun row => Event.device_id row = "D") created
    ∧ Device.mk 1 "D" "Gate camera" "Pixel" "14" "K1" true 1700000000
      ∈ Session.devices db'.
Proof.
  assert (Forall (fun e => ∀ id, @Sample.accept Event.t
                                  (Events.new_event Sample.device_D e id) = None)
            (BatchEventRequest.events
               (Sample.request ["UNKNOWN_FACE_DETECTED"; "VEHICLE_ENTERED"])))
    as Hflush by (apply Forall_forall; reflexivity).
  destruct (post_events_attributes_to_key_owner Sample.no_rowid Sample.accept
              Sample.accept "K1" 1700000000
              (Sample.request ["UNKNOWN_FACE_DETECTED"; "VEHICLE_ENTERED"])
              Sample.db Sample.device_D sample_keys_unique (list_elem_of_here _ _)
              eq_refl eq_refl eq_refl Hflush (fun _ => eq_refl)
              ltac:(vm_compute; discriminate) (Forall_nil_2 _))
    as (created & db' & tasks & device & Heq & Hev & Hlen & Hdev & Hin & -> & _).
  exists created, db', tasks. split; [exact Heq|]. split; [exact Hev|].
  split; [exact Hlen|]. split; [exact Hdev | exact Hin].
Defined.

(** ** Subscribing, then an alert *)

(** X24. A subscriber is served by the next alert: after [subscribe] of a
    dictionary whose endpoint can be a key, an alert of a type in the
    template table makes exactly one delivery attempt for every entry of the
    table, in the order of the table: for every endpoint that was subscribed
    before, and for the new one, last when it is new and in its old place
    when it renews.  So the attempted endpoints are pairwise distinct, every
    earlier subscriber and the new one are among them, and every attempt
    carries the payload made from the template.  [Hdict] says that the table
    is a dictionary: its keys are distinct. *)
Theorem subscribe_then_alert
    (generate_private_key : nat -> string * string) (host : string)
    (webpush : Json.t -> Push.Payload.t -> string -> string -> Push.WebPushResult)
    (truthy : Push.HTTPResponse.t -> bool)
    (entries : list (string * Json.t)) (key : Key.t) (user_id : string)
    (event_type details title default_body : string) (event_id : option Z)
    (w : Push.World.t)
    (Hkey : Key.of_value (default (Json.str "") (Json.get "endpoint" entries)) = Some key)
    (Htemplate : Push.template event_type = Some (title, default_body))
    (Hdict : NoDup (PyDict.keys (Push.World.push_subscriptions w))) :
  let subscribed := snd (Push.subscribe (Json.object entries) user_id w) in
  let after := snd (Push.send_alert_notification generate_private_key host webpush
                      truthy event_type details event_id subscribed) in
  let payload :=
    Push.Payload.mk title
      (if bool_decide (details = "") then default_body else details)
      (match event_id with
       | Some n => if bool_decide (n = 0%Z) then "/events"
                   else "/events?highlight=" +:+ str_of_int n
       | None => "/events"
       end)
      ("alert-" +:+ Push.lower event_type) event_id in
  ∃ sent,
    Push.attempts (Push.World.log after) = Push.attempts (Push.World.log w) ++ sent
    ∧ fst <$> sent
      = (if bool_decide (key ∈ PyDict.keys (Push.World.push_subscriptions w))
         then PyDict.keys (Push.World.push_subscriptions w)
         else PyDict.keys (Push.World.push_subscriptions w) ++ [key])
    ∧ NoDup (fst <$> sent)
    ∧ (∀ endpoint, endpoint ∈ PyDict.keys (Push.World.push_subscriptions w) →
                   endpoint ∈ fst <$> sent)
    ∧ key ∈ fst <$> sent
    ∧ Forall (fun attempt => snd attempt = payload) sent.
Proof.
  intros subscribed after payload. unfold after.
  rewrite (send_alert_notification_attempts generate_private_key host webpush truthy
             event_type details title default_body event_id subscribed Htemplate).
  fold payload.
  assert (Push.World.log subscribed = Push.World.log w
          ∧ Push.World.push_subscriptions subscribed
            = PyDict.set key (Push.SubData.mk (Json.object entries) user_id)
                (Push.World.push_subscriptions w)) as [-> Hsubs].
  { unfold subscribed, Push.subscribe. by rewrite Hkey. }
  eexists. split; [done|].
  rewrite <- list_fmap_compose, Hsubs.
  change (fst ∘ (fun item : Key.t * Push.SubData.t => (fst item, payload))
            <$> PyDict.set key (Push.SubData.mk (Json.object entries) user_id)
                  (Push.World.push_subscriptions w))
    with (PyDict.keys (PyDict.set key (Push.SubData.mk (Json.object entries) user_id)
                         (Push.World.push_subscriptions w))).
  split; [apply keys_set|]. split; [by apply NoDup_keys_set|].
  split; [|split].
  - intros endpoint Hin. rewrite keys_set. case_bool_decide; [done|].
    apply elem_of_app. by left.
  - apply elem_of_keys. rewrite get_set_eq. by eexists.
  - rewrite Forall_fmap. by apply Forall_forall.
Qed.

Lemma subscribe_then_alert_witness :
  let subscribed := snd (Push.subscribe (Sample.subscription "https://push.example/new")
                           "anonymous" Sample.subscribed) in
  let after := snd (Push.send_alert_notification Sample.key_pairs "0.0.0.0" Sample.service
                      Push.HTTPResponse.ok "LOITERING_DETECTED" "" (Some 4%Z) subscribed) in
  ∃ sent,
    Push.attempts (Push.World.log after) = sent
    ∧ fst <$> sent
      = [Key.str Sample.gone; Key.str Sample.busy; Key.str Sample.live;
         Key.str "https://push.example/new"]
    ∧ Forall (fun attempt =>
                snd attempt
                = Push.Payload.mk "Loitering Alert" "Unusual activity detected"
                    "/events?highlight=4" "alert-loitering_detected" (Some 4%Z)) sent.
Proof.
  destruct (subscribe_then_alert Sample.key_pairs "0.0.0.0" Sample.service
              Push.HTTPResponse.ok
              [("endpoint", Json.str "https://push.example/new");
               ("keys", Json.object [("p256dh", Json.str "BNc"); ("auth", Json.str "tBH")])]
              (Key.str "https://push.example/new") "anonymous"
              "LOITERING_DETECTED" "" "Loitering Alert" "Unusual activity detected"
              (Some 4%Z) Sample.subscribed eq_refl eq_refl sample_subscribed_dict)
    as (sent & Hlog & Hkeys & _ & _ & _ & Hpayload).
  exists sent. split; [exact Hlog|]. split; [exact Hkeys | exact Hpayload].
Defined.

(** ** The key files during a sweep *)

Section SweepKeys.
Import Push.
Variable generate_private_key : nat -> string * string.
Variable host : string.
Variable webpush : Json.t -> Payload.t -> string -> string -> WebPushResult.
Variable truthy : HTTPResponse.t -> bool.

Lemma key_state_record (e : Effect) (w : World.t) :
  KeyFiles.key_state (World.record e w) = KeyFiles.key_state w.
Proof. done. Qed.

Lemma generate_vapid_keys_settled (w : World.t) :
  is_Some (World.vapid_private_pem w) → is_Some (World.vapid_public_txt w) →
  KeyFiles.key_state (generate_vapid_keys generate_private_key w) = KeyFiles.key_state w.
Proof.
  intros [pem Hpem] [pub Hpub]. unfold generate_vapid_keys. by rewrite Hpem, Hpub.
Qed.

Lemma push_loop_keys data (items : list (Key.t * SubData.t)) :
  ∀ failed_endpoints w, items ≠ [] →
    KeyFiles.key_state (snd (foldl (push_step generate_private_key host webpush truthy data)
                      (failed_endpoints, w) items))
    = KeyFiles.key_state (generate_vapid_keys generate_private_key w).
Proof.
  induction items as [|[endpoint sub_data] items IH]; intros failed w Hne; [done|].
  cbn [foldl].
  destruct (push_step_spec generate_private_key host webpush truthy data failed w
              endpoint sub_data) as [_ Hw].
  destruct (push_step _ _ _ _ _ _ _) as [failed' w1]. simpl in Hw. subst w1.
  destruct items as [|item items]; [done|].
  rewrite IH by done.
  rewrite <- (generate_record generate_private_key read_private_key w) at 1.
  by rewrite !generate_record.
Qed.
End SweepKeys.

(** X25. The key files over a sweep: with at least one subscriber,
    [send_push_notification] leaves the two key files and the count of
    generated pairs as one call of [generate_vapid_keys] leaves them, however
    many deliveries it makes and however it ends; both files exist
    afterwards, and when both existed before, they are unchanged and no pair
    is generated. *)
Theorem send_push_notification_keys
    (generate_private_key : nat -> string * string) (host : string)
    (webpush : Json.t -> Push.Payload.t -> string -> string -> Push.WebPushResult)
    (truthy : Push.HTTPResponse.t -> bool)
    (title body url tag : string) (event_id : option Z) (w : Push.World.t)
    (Hsubscribers : Push.World.push_subscriptions w ≠ []) :
  let after := snd (Push.send_push_notification generate_private_key host webpush truthy
                      title body url tag event_id w) in
  KeyFiles.key_state after = KeyFiles.key_state (Push.generate_vapid_keys generate_private_key w)
  ∧ is_Some (Push.World.vapid_private_pem after)
  ∧ is_Some (Push.World.vapid_public_txt after)
  ∧ (is_Some (Push.World.vapid_private_pem w) →
     is_Some (Push.World.vapid_public_txt w) →
     KeyFiles.key_state after = KeyFiles.key_state w).
Proof.
  intros after.
  assert (KeyFiles.key_state after = KeyFiles.key_state (Push.generate_vapid_keys generate_private_key w))
    as Hstate.
  { unfold after, Push.send_push_notification.
    destruct (Push.World.push_subscriptions w) as [|item items] eqn:Hitems; [done|].
    pose proof (push_loop_keys generate_private_key host webpush truthy
                  (Push.Payload.mk title body url tag event_id)
                  (item :: items) [] w) as Hloop.
    destruct (foldl (Push.push_step _ _ _ _ _) _ _) as [failed w'].
    simpl in Hloop. rewrite <- Hloop by done.
    by destruct (cleanup_spec failed w') as (_ & _ & _ & _ & _ & ->). }
  split; [done|].
  destruct (generate_vapid_keys_present generate_private_key w)
    as (pem & pub & Hpem & Hpub).
  unfold KeyFiles.key_state in Hstate. injection Hstate as H1 H2 H3.
  split; [by rewrite H1, Hpem|]. split; [by rewrite H2, Hpub|].
  intros Hprivate Hpublic. unfold KeyFiles.key_state at 1. rewrite H1, H2, H3.
  by apply generate_vapid_keys_settled.
Qed.

Lemma send_push_notification_keys_witness :
  let after := snd (Push.send_push_notification Sample.key_pairs "0.0.0.0" Sample.service
                      Push.HTTPResponse.ok "Loitering Alert" "Unusual activity detected"
                      "/events" "alert-loitering_detected" None Sample.subscribed) in
  KeyFiles.key_state after = (Some "PRIVATE-0", Some "PUBLIC-0", 1)
  ∧ is_Some (Push.World.vapid_private_pem after)
  ∧ is_Some (Push.World.vapid_public_txt after).
Proof.
  destruct (send_push_notification_keys Sample.key_pairs "0.0.0.0" Sample.service
              Push.HTTPResponse.ok "Loitering Alert" "Unusual activity detected"
              "/events" "alert-loitering_detected" None Sample.subscribed
              ltac:(discriminate)) as (Hstate & Hpem & Hpub & _).
  split; [exact Hstate|]. split; [exact Hpem | exact Hpub].
Defined.
